(** * Bookstore API: the cache-aside data-access layer of [backend/server.js]

    A shallow embedding of the validators, the cache helpers, the five
    book routes and the start-up sequence of [backend/server.js], together
    with the part of the JavaScript semantics they rely on
    ([String.prototype.replace] with a character class, [RegExp.test],
    [parseFloat], [parseInt], [ToString], truthiness). *)

From Stdlib Require Import ZArith QArith Qround Qabs Lia Bool List.
From Stdlib Require Import Ascii String.
From stdpp Require Import base option list gmap.

Set Default Proof Using "Type".
Set Warnings "-register-all".
Local Open Scope Z_scope.

(** ** JavaScript strings

    A JavaScript string is a sequence of UTF-16 code units. *)

Abbreviation jsstring := (list N).

Fixpoint js (s : string) : jsstring :=
  match s with
  | EmptyString => []
  | String a t => N_of_ascii a :: js t
  end.

Definition cu (a : ascii) : N := N_of_ascii a.

Fixpoint starts_with (p s : list N) : bool :=
  match p, s with
  | [], _ => true
  | a :: p', b :: s' => N.eqb a b && starts_with p' s'
  | _ :: _, [] => false
  end.

Definition jsstring_eqb (a b : list N) : bool := bool_decide (a = b).

Module Regex.

(** The fragment of regular expressions the validators use: literal
    characters, character classes, sequence, alternation and bounded
    repetition [r{n}].  [rmatch r s] lists what is left of [s] after each
    way of matching a prefix of it, in backtracking order. *)

Inductive regex :=
| RChar (c : N)
| RClass (p : N -> bool)
| RSeq (r1 r2 : regex)
| RAlt (r1 r2 : regex)
| RRep (n : nat) (r : regex).

Fixpoint rmatch (r : regex) (s : list N) : list (list N) :=
  match r with
  | RChar c =>
      match s with
      | x :: t => if N.eqb x c then [t] else []
      | [] => []
      end
  | RClass p =>
      match s with
      | x :: t => if p x then [t] else []
      | [] => []
      end
  | RSeq r1 r2 => flat_map (rmatch r2) (rmatch r1 s)
  | RAlt r1 r2 => rmatch r1 s ++ rmatch r2 s
  | RRep n r' =>
      (fix rep (k : nat) (acc : list (list N)) : list (list N) :=
         match k with
         | O => acc
         | S k' => rep k' (flat_map (rmatch r') acc)
         end) n [s]
  end.

(** [/^(?:r)$/.test(s)]: some way of matching consumes the whole of [s]. *)
Definition test_anchored (r : regex) (s : list N) : bool :=
  existsb (fun rest => match rest with [] => true | _ => false end) (rmatch r s).

(** [\d] *)
Definition digit (c : N) : bool := (48 <=? c)%N && (c <=? 57)%N.

(** [\s]: WhiteSpace and LineTerminator code units. *)
Definition space (c : N) : bool :=
  (((9 <=? c) && (c <=? 13)) || (c =? 32) || (c =? 160) || (c =? 5760)
   || ((8192 <=? c) && (c <=? 8202)) || (c =? 8232) || (c =? 8233)
   || (c =? 8239) || (c =? 8287) || (c =? 12288) || (c =? 65279))%N.

(** [s.replace(/[cls]/g, '')]: every code unit of the class is dropped. *)
Definition replace_class_all (cls : N -> bool) (s : list N) : list N :=
  List.filter (fun c => negb (cls c)) s.

End Regex.

Import Regex.

(** ** JavaScript numbers

    A Number is an IEEE-754 binary64 value.  A finite one is kept as the
    rational it denotes (the sign of zero is never observed by the code
    modelled here: it compares, prints and serialises like [0]). *)

Inductive number :=
| NaN
| Inf (neg : bool)
| Fin (q : Q).

Module Num.

Local Open Scope Q_scope.

Definition pow2 (e : Z) : Q :=
  if (0 <=? e)%Z then inject_Z (2 ^ e) else 1 # Z.to_pos (2 ^ (- e)).

Definition pow10 (e : Z) : Q :=
  if (0 <=? e)%Z then inject_Z (10 ^ e) else 1 # Z.to_pos (10 ^ (- e)).

(** [floor (log2 q)] for [0 < q]. *)
Definition ilog2 (q : Q) : Z :=
  let g := (Z.log2 (Qnum q) - Z.log2 (Zpos (Qden q)))%Z in
  if Qle_bool (pow2 g) q then g else (g - 1)%Z.

(** Number of decimal digits of a positive integer. *)
Fixpoint ndigits_aux (fuel : nat) (n : Z) : Z :=
  match fuel with
  | O => 0
  | S f => if (n <? 10)%Z then 1 else (1 + ndigits_aux f (n / 10))%Z
  end.

Definition ndigits (n : Z) : Z := ndigits_aux (S (Z.to_nat (Z.log2 n))) n.

(** [floor (log10 q)] for [0 < q]. *)
Definition ilog10 (q : Q) : Z :=
  let g := (ndigits (Qnum q) - ndigits (Zpos (Qden q)))%Z in
  if Qle_bool (pow10 g) q then g else (g - 1)%Z.

(** Nearest integer to [q >= 0], ties to even. *)
Definition round_half_even (q : Q) : Z :=
  let f := Qfloor q in
  match Qcompare (q - inject_Z f) (1 # 2) with
  | Lt => f
  | Gt => (f + 1)%Z
  | Eq => if Z.even f then f else (f + 1)%Z
  end.

(** The Number value for the real [q]: round to nearest binary64, ties to
    even, with gradual underflow and overflow to infinity. *)
Definition round64 (q : Q) : number :=
  if Qeq_bool q 0 then Fin 0 else
  let neg := negb (Qle_bool 0 q) in
  let a := Qabs q in
  let e := Z.max (ilog2 a - 52) (- 1074) in
  let m := round_half_even (a / pow2 e) in
  if (971 <? e)%Z || ((e =? 971)%Z && (2 ^ 53 <=? m)%Z) then Inf neg
  else Fin (Qred ((if neg then - inject_Z m else inject_Z m) * pow2 e)).

Definition of_Z (z : Z) : number := round64 (inject_Z z).

Definition eqb (x y : number) : bool :=
  match x, y with
  | Fin p, Fin q => Qeq_bool p q
  | Inf a, Inf b => Bool.eqb a b
  | _, _ => false
  end.

(** [x <= y] and [x >= y] on Numbers: false as soon as one side is NaN. *)
Definition leb (x y : number) : bool :=
  match x, y with
  | NaN, _ | _, NaN => false
  | Inf true, _ => true
  | _, Inf false => true
  | Inf false, _ => false
  | _, Inf true => false
  | Fin p, Fin q => Qle_bool p q
  end.

Definition geb (x y : number) : bool := leb y x.

Definition isNaN (x : number) : bool :=
  match x with NaN => true | _ => false end.

End Num.

(** ** JavaScript values

    The values [JSON.parse] can produce, and [undefined].  An object is the
    list of its own properties in insertion order (keys are distinct). *)

Inductive value :=
| VUndefined
| VNull
| VBool (b : bool)
| VNum (n : number)
| VStr (s : jsstring)
| VArr (items : list value)
| VObj (props : list (jsstring * value)).

(** ** Completions and promises

    A JavaScript evaluation either returns or throws.  An error object is
    kept as its kind and, for driver errors, its [code] property. *)

Inductive exn :=
| TypeError
| SyntaxError
| CodedError (code : jsstring).

Inductive completion (A : Type) :=
| Normal (a : A)
| Throw (e : exn).

Arguments Normal {A} a.
Arguments Throw {A} e.

Definition bind_c {A B} (c : completion A) (k : A -> completion B) : completion B :=
  match c with
  | Normal a => k a
  | Throw e => Throw e
  end.

(** What [await] meets: the promise is fulfilled with a value, rejected
    with an error, or it never settles, and then the function that awaits
    it never goes on. *)
Inductive promise (A : Type) :=
| Fulfilled (a : A)
| Rejected (e : exn)
| Pending.

Arguments Fulfilled {A} a.
Arguments Rejected {A} e.
Arguments Pending {A}.

Definition settled {A} (c : completion A) : promise A :=
  match c with
  | Normal a => Fulfilled a
  | Throw e => Rejected e
  end.

Module JS.

(** *** Decimal digits *)

Definition digit_val (c : N) : Z := Z.of_N c - 48.

Definition digits_val (ds : list N) : Z :=
  fold_left (fun acc c => 10 * acc + digit_val c) ds 0.

Definition digit_char (d : Z) : N := Z.to_N (48 + d).

Fixpoint Z_digits_aux (fuel : nat) (n : Z) (acc : list N) : list N :=
  match fuel with
  | O => acc
  | S f =>
      if n <? 10 then digit_char n :: acc
      else Z_digits_aux f (n / 10) (digit_char (n mod 10) :: acc)
  end.

(** Decimal representation of [0 <= n]. *)
Definition Z_digits (n : Z) : list N :=
  Z_digits_aux (S (Z.to_nat (Z.log2 n))) n [].

Fixpoint span (p : N -> bool) (s : list N) : list N * list N :=
  match s with
  | c :: t => if p c then let '(a, b) := span p t in (c :: a, b) else ([], s)
  | [] => ([], [])
  end.

Definition zeros (n : Z) : list N := repeat (cu "0") (Z.to_nat n).

(** *** Number::toString (radix 10)

    [shortest x] searches the integers [n], [k], [s] of the language
    definition: [k] as small as possible with [10^(k-1) <= s < 10^k] and
    the Number value of [s * 10^(n-k)] being [x]; among several [s] the
    one nearest to [x], the even one on a tie. *)

Definition candidate (x : Q) (k n : Z) : option (Z * Z * Z) :=
  let scale := Num.pow10 (n - k) in
  let f := Qfloor (x / scale) in
  let ok c := (0 <? c) && Num.eqb (Num.round64 (inject_Z c * scale)) (Fin x) in
  let dist c := Qabs (inject_Z c * scale - x)%Q in
  let norm c := if c =? 10 ^ k then (10 ^ (k - 1), k, n + 1) else (c, k, n) in
  match ok f, ok (f + 1) with
  | true, true =>
      match Qcompare (dist f) (dist (f + 1)) with
      | Lt => Some (norm f)
      | Gt => Some (norm (f + 1))
      | Eq => Some (norm (if Z.even f then f else f + 1))
      end
  | true, false => Some (norm f)
  | false, true => Some (norm (f + 1))
  | false, false => None
  end.

Fixpoint shortest_from (fuel : nat) (x : Q) (k n : Z) : Z * Z * Z :=
  match fuel with
  | O => (Qfloor (x / Num.pow10 (n - k)), k, n)
  | S f =>
      match candidate x k n with
      | Some r => r
      | None => shortest_from f x (k + 1) n
      end
  end.

Definition shortest (x : Q) : Z * Z * Z :=
  shortest_from 17 x 1 (Num.ilog10 x + 1).

Definition exponent_part (n : Z) : list N :=
  cu "e" :: (if 0 <=? n - 1 then cu "+" else cu "-") :: Z_digits (Z.abs (n - 1)).

Definition positive_to_string (x : Q) : list N :=
  let '(s, k, n) := shortest x in
  let ds := Z_digits s in
  if (k <=? n) && (n <=? 21) then ds ++ zeros (n - k)
  else if (0 <? n) && (n <=? 21) then
    take (Z.to_nat n) ds ++ cu "." :: drop (Z.to_nat n) ds
  else if (-6 <? n) && (n <=? 0) then
    cu "0" :: cu "." :: zeros (- n) ++ ds
  else if k =? 1 then ds ++ exponent_part n
  else take 1 ds ++ cu "." :: drop 1 ds ++ exponent_part n.

Definition number_to_string (x : number) : list N :=
  match x with
  | NaN => js "NaN"
  | Inf false => js "Infinity"
  | Inf true => js "-Infinity"
  | Fin q =>
      if Qeq_bool q 0 then js "0"
      else if Qle_bool 0 q then positive_to_string q
      else cu "-" :: positive_to_string (Qabs q)
  end.

(** *** ToString *)

(** An own property named [k]. *)
Definition has_own (k : list N) (props : list (list N * value)) : bool :=
  existsb (fun kv => jsstring_eqb (fst kv) k) props.

(** [ToString(v)].  An object is converted through its [toString] method:
    an object that [JSON.parse] built inherits the one of
    [Object.prototype] unless it has an own property of that name, which
    holds a JSON value, not a function; [valueOf] then returns the object
    itself and the conversion throws a TypeError.  An array is converted by
    [Array.prototype.join], which converts the elements in order, [null]
    and [undefined] as the empty string. *)
Fixpoint to_string (v : value) : completion (list N) :=
  match v with
  | VUndefined => Normal (js "undefined")
  | VNull => Normal (js "null")
  | VBool true => Normal (js "true")
  | VBool false => Normal (js "false")
  | VNum n => Normal (number_to_string n)
  | VStr s => Normal s
  | VArr items =>
      (fix join_items (l : list value) : completion (list N) :=
         match l with
         | [] => Normal []
         | x :: rest =>
             match (match x with
                    | VUndefined | VNull => Normal []
                    | _ => to_string x
                    end) with
             | Throw e => Throw e
             | Normal p =>
                 match rest with
                 | [] => Normal p
                 | _ =>
                     match join_items rest with
                     | Throw e => Throw e
                     | Normal q => Normal (p ++ js "," ++ q)
                     end
                 end
             end
         end) items
  | VObj props =>
      if has_own (js "toString") props then Throw TypeError
      else Normal (js "[object Object]")
  end.

(** *** ToBoolean and the operators built on it *)

Definition truthy (v : value) : bool :=
  match v with
  | VUndefined | VNull => false
  | VBool b => b
  | VNum NaN => false
  | VNum (Inf _) => true
  | VNum (Fin q) => negb (Qeq_bool q 0)
  | VStr s => match s with [] => false | _ => true end
  | VArr _ | VObj _ => true
  end.

(** [a || b] *)
Definition or_else (a b : value) : value := if truthy a then a else b.

(** [v !== undefined] *)
Definition is_defined (v : value) : bool :=
  match v with VUndefined => false | _ => true end.

(** *** parseFloat and parseInt

    Both convert their argument with ToString, skip leading white space,
    and read the longest prefix that is a literal of their grammar. *)

Definition trim_start (s : list N) : list N := snd (span Regex.space s).

Definition read_sign (s : list N) : bool * list N :=
  match s with
  | c :: t =>
      if N.eqb c (cu "-") then (true, t)
      else if N.eqb c (cu "+") then (false, t)
      else (false, s)
  | [] => (false, s)
  end.

(** ExponentPart: [e] or [E], an optional sign, at least one digit;
    absent or incomplete, it contributes nothing. *)
Definition read_exponent (s : list N) : Z :=
  match s with
  | c :: t =>
      if N.eqb c (cu "e") || N.eqb c (cu "E") then
        let '(neg, t') := read_sign t in
        let '(ds, _) := span Regex.digit t' in
        match ds with
        | [] => 0
        | _ => if neg then - digits_val ds else digits_val ds
        end
      else 0
  | [] => 0
  end.

Definition signed (neg : bool) (q : Q) : Q := if neg then (- q)%Q else q.

Definition parseFloat_string (input : list N) : number :=
  let '(neg, s) := read_sign (trim_start input) in
  if starts_with (js "Infinity") s then Inf neg
  else
    let '(ip, r1) := span Regex.digit s in
    let '(fp, r2) :=
      match r1 with
      | c :: t => if N.eqb c (cu ".") then span Regex.digit t else ([], r1)
      | [] => ([], r1)
      end in
    match ip ++ fp with
    | [] => NaN
    | ds =>
        let e := read_exponent r2 - Z.of_nat (length fp) in
        Num.round64 (signed neg (inject_Z (digits_val ds) * Num.pow10 e))
    end.

Definition parseFloat (v : value) : completion number :=
  bind_c (to_string v) (fun s => Normal (parseFloat_string s)).

Definition hex_digit (c : N) : bool :=
  (Regex.digit c || ((97 <=? c) && (c <=? 102)) || ((65 <=? c) && (c <=? 70)))%N.

Definition hex_val (c : N) : Z :=
  if Regex.digit c then Z.of_N c - 48
  else if (97 <=? c)%N then Z.of_N c - 87
  else Z.of_N c - 55.

(** [parseInt(v)] with no radix argument: radix 10, or 16 after a [0x]
    or [0X] prefix. *)
Definition parseInt_string (input : list N) : number :=
  let '(neg, s) := read_sign (trim_start input) in
  let '(hex, s') :=
    match s with
    | c0 :: c1 :: t =>
        if N.eqb c0 (cu "0") && (N.eqb c1 (cu "x") || N.eqb c1 (cu "X"))
        then (true, t) else (false, s)
    | _ => (false, s)
    end in
  let '(ds, _) := span (if hex then hex_digit else Regex.digit) s' in
  match ds with
  | [] => NaN
  | _ =>
      let n := if hex then fold_left (fun acc c => 16 * acc + hex_val c) ds 0
               else digits_val ds in
      Num.of_Z (if neg then - n else n)
  end.

Definition parseInt (v : value) : completion number :=
  bind_c (to_string v) (fun s => Normal (parseInt_string s)).

End JS.

(** ** Validation functions (server.js, lines 162-179) *)

(** [/^(?:\d{9}X|\d{10})$/] *)
Definition isbn10Regex : regex :=
  RAlt (RSeq (RRep 9 (RClass digit)) (RChar (cu "X"))) (RRep 10 (RClass digit)).

(** [/^(?:97[89]\d{10})$/] *)
Definition isbn13Regex : regex :=
  RSeq (RChar (cu "9"))
    (RSeq (RChar (cu "7"))
       (RSeq (RClass (fun c => N.eqb c (cu "8") || N.eqb c (cu "9")))
          (RRep 10 (RClass digit)))).

(** [isbn.replace(/[-\s]/g, '')] *)
Definition cleanISBN (isbn : jsstring) : jsstring :=
  replace_class_all (fun c => N.eqb c (cu "-") || space c) isbn.

(** [isbn.replace] exists on strings only: the call throws a TypeError on
    every other value. *)
Definition validateISBN (isbn : value) : completion bool :=
  match isbn with
  | VStr s =>
      Normal (test_anchored isbn10Regex (cleanISBN s)
              || test_anchored isbn13Regex (cleanISBN s))
  | _ => Throw TypeError
  end.

(** [parseFloat] and [parseInt] throw when the conversion of their
    argument to a string does. *)
Definition validatePrice (price : value) : completion bool :=
  bind_c (JS.parseFloat price) (fun numPrice =>
  Normal (negb (Num.isNaN numPrice)
          && Num.geb numPrice (Fin 0) && Num.leb numPrice (Fin 10000))).

Definition validateStock (stock : value) : completion bool :=
  bind_c (JS.parseInt stock) (fun numStock =>
  Normal (negb (Num.isNaN numStock)
          && Num.geb numStock (Fin 0) && Num.leb numStock (Fin 100000))).

(** *** The formats as the documentation words them *)

(** ISBN-10: ten characters, digits, the last of which may be [X]. *)
Definition isbn10_format (s : jsstring) : Prop :=
  length s = 10%nat
  /\ Forall (fun c => digit c = true) (take 9 s)
  /\ exists c, s !! 9%nat = Some c /\ (digit c = true \/ c = cu "X").

(** ISBN-13: thirteen digits beginning with [978] or [979]. *)
Definition isbn13_format (s : jsstring) : Prop :=
  length s = 13%nat
  /\ Forall (fun c => digit c = true) s
  /\ (take 3 s = js "978" \/ take 3 s = js "979").

(** *** The stripping as the documentation words it *)

(** [s] without the code units listed in [cs]. *)
Definition without (cs : list N) (s : jsstring) : jsstring :=
  List.filter (fun c => negb (existsb (N.eqb c) cs)) s.

(** "Hyphens and spaces": the hyphen-minus and the space character. *)
Definition strip_hyphens_and_spaces (s : jsstring) : jsstring :=
  without [45; 32]%N s.

(** The white-space characters of the language: TAB, LF, VT, FF, CR, the
    space, the no-break space, U+1680, U+2000 to U+200A, the line and the
    paragraph separator, U+202F, U+205F, U+3000 and the byte-order mark. *)
Definition white_space : list N :=
  [9; 10; 11; 12; 13; 32; 160; 5760;
   8192; 8193; 8194; 8195; 8196; 8197; 8198; 8199; 8200; 8201; 8202;
   8232; 8233; 8239; 8287; 12288; 65279]%N.

(** Hyphens and every white-space character. *)
Definition strip_hyphens_and_white_space (s : jsstring) : jsstring :=
  without (45%N :: white_space) s.

(** ** JSON

    [json_clone v] is the value [JSON.parse (JSON.stringify v)] denotes:
    properties holding [undefined] are dropped, [undefined] inside an array
    and the non-finite Numbers become [null]. *)

Module Json.

Fixpoint json_clone (v : value) : value :=
  match v with
  | VUndefined => VUndefined
  | VNull => VNull
  | VBool b => VBool b
  | VNum (Fin q) => VNum (Fin q)
  | VNum _ => VNull
  | VStr s => VStr s
  | VArr items =>
      VArr (map (fun x => match x with
                          | VUndefined => VNull
                          | _ => json_clone x
                          end) items)
  | VObj props =>
      VObj ((fix clone_props (ps : list (jsstring * value)) :=
               match ps with
               | [] => []
               | (k, VUndefined) :: rest => clone_props rest
               | (k, x) :: rest => (k, json_clone x) :: clone_props rest
               end) props)
  end.

(** The text held under a Redis key: the JSON text of a value (kept as
    the value it denotes, in cloned form), or some text that is not JSON
    (the empty string included). *)
Inductive text :=
| JsonText (v : value)
| NotJson.

(** [JSON.stringify v]: [undefined] for [undefined], a text otherwise. *)
Definition stringify (v : value) : option text :=
  match v with
  | VUndefined => None
  | _ => Some (JsonText (json_clone v))
  end.

Definition parse (t : text) : completion value :=
  match t with
  | JsonText v => Normal v
  | NotJson => Throw SyntaxError
  end.

End Json.

(** ** Objects *)

Module Obj.

Fixpoint lookup_prop (k : jsstring) (ps : list (jsstring * value)) : value :=
  match ps with
  | [] => VUndefined
  | (k', v) :: rest => if jsstring_eqb k k' then v else lookup_prop k rest
  end.

(** [body.k] for a key that no prototype defines. *)
Definition get (k : jsstring) (o : value) : value :=
  match o with
  | VObj ps => lookup_prop k ps
  | _ => VUndefined
  end.

(** Assignment of an own property: in place when the key exists, at the
    end otherwise. *)
Fixpoint set_prop (k : jsstring) (v : value) (ps : list (jsstring * value))
  : list (jsstring * value) :=
  match ps with
  | [] => [(k, v)]
  | (k', v') :: rest =>
      if jsstring_eqb k k' then (k', v) :: rest else (k', v') :: set_prop k v rest
  end.

Fixpoint indexed {A} (f : A -> value) (i : Z) (l : list A) : list (jsstring * value) :=
  match l with
  | [] => []
  | x :: t => (JS.Z_digits i, f x) :: indexed f (i + 1) t
  end.

(** Own enumerable properties copied by [{...v}]: those of an object, the
    indices of an array or of a string, none for the other primitives. *)
Definition spread (v : value) : list (jsstring * value) :=
  match v with
  | VObj ps => ps
  | VArr items => indexed (fun x => x) 0 items
  | VStr s => indexed (fun c => VStr [c]) 0 s
  | _ => []
  end.

End Obj.

(** ** The Redis client

    The key space of the cache server as seen through the client, the
    client's [isOpen] flag, and a schedule of what the commands to come
    meet: each command takes the head of [faults] (an exhausted schedule
    means that every further command is answered).  A command is answered
    by the server, or rejected (the connection drops while the command is
    in flight), or it stalls: [isOpen] stays true while the client tries to
    reconnect, a command sent meanwhile waits in the client's queue, and
    when the server stays unreachable its promise never settles.  Expiry
    only removes entries: it is part of the runs of [serve_each] below, as
    the keys that have expired before each request. *)

Inductive fate :=
| Replies
| Fails
| Stalls.

Record redis_client := {
  isOpen : bool;
  keyspace : gmap (list N) Json.text;
  faults : list fate
}.

Module Redis.

(** Glob patterns of [KEYS]: [*] and [?] (the classes and escapes of the
    full syntax do not occur in the patterns of this program). *)
Fixpoint glob (p s : list N) : bool :=
  match p with
  | [] => match s with [] => true | _ => false end
  | c :: p' =>
      if N.eqb c (cu "*") then
        (fix star (u : list N) : bool :=
           glob p' u || match u with [] => false | _ :: u' => star u' end) s
      else
        match s with
        | [] => false
        | x :: s' => (N.eqb c (cu "?") || N.eqb c x) && glob p' s'
        end
  end.

Definition next_fault (c : redis_client) : fate * redis_client :=
  match faults c with
  | [] => (Replies, c)
  | f :: rest => (f, {| isOpen := isOpen c; keyspace := keyspace c; faults := rest |})
  end.

Definition with_keyspace (c : redis_client) (m : gmap (list N) Json.text) : redis_client :=
  {| isOpen := isOpen c; keyspace := m; faults := faults c |}.

Definition command_error : exn := CodedError (js "ECONNRESET").

Definition get (key : jsstring) (c : redis_client) : promise (option Json.text) * redis_client :=
  let '(f, c') := next_fault c in
  match f with
  | Replies => (Fulfilled (keyspace c' !! key), c')
  | Fails => (Rejected command_error, c')
  | Stalls => (Pending, c')
  end.

(** [setEx(key, ttl, text)]; a missing text is refused by the client. *)
Definition setEx (key : jsstring) (ttl : Z) (t : option Json.text) (c : redis_client)
  : promise unit * redis_client :=
  match t with
  | None => (Rejected TypeError, c)
  | Some t' =>
      let '(f, c') := next_fault c in
      match f with
      | Replies => (Fulfilled tt, with_keyspace c' (<[key := t']> (keyspace c')))
      | Fails => (Rejected command_error, c')
      | Stalls => (Pending, c')
      end
  end.

Definition keys (pattern : jsstring) (c : redis_client) : promise (list jsstring) * redis_client :=
  let '(f, c') := next_fault c in
  match f with
  | Replies =>
      (Fulfilled (List.filter (glob pattern) (map fst (map_to_list (keyspace c')))), c')
  | Fails => (Rejected command_error, c')
  | Stalls => (Pending, c')
  end.

Definition del (ks : list jsstring) (c : redis_client) : promise unit * redis_client :=
  let '(f, c') := next_fault c in
  match f with
  | Replies => (Fulfilled tt, with_keyspace c' (foldr delete (keyspace c') ks))
  | Fails => (Rejected command_error, c')
  | Stalls => (Pending, c')
  end.

End Redis.

(** ** The store

    The five statements the routes send through [pool.query], as an
    interface: each either returns or throws a driver error (with its
    [code]; the driver gives up on a server it cannot reach, and reports
    that as an error); a statement that throws leaves the data as it was.  Rows come
    back as the objects the driver builds, in their JSON form (the routes
    never look inside a row).  [insert_book] returns [insertId],
    [update_book] and [delete_book] return [affectedRows]. *)

Class Store := {
  db : Type;
  (** [SELECT * FROM books ORDER BY created_at DESC] *)
  select_all : db -> completion (list value);
  (** [SELECT * FROM books WHERE id = ?] *)
  select_by_id : db -> value -> completion (list value);
  (** [INSERT INTO books (title, author, isbn, price, stock) VALUES (?, ?, ?, ?, ?)] *)
  insert_book : db -> value -> value -> value -> value -> value -> completion (Z * db);
  (** [UPDATE books SET title = ?, author = ?, isbn = ?, price = ?, stock = ?,
      updated_at = NOW() WHERE id = ?] *)
  update_book : db -> value -> value -> value -> value -> value -> value -> completion (Z * db);
  (** [DELETE FROM books WHERE id = ?] *)
  delete_book : db -> value -> completion (Z * db)
}.

(** ** Process state and the monad of the request handlers *)

(** The two module-level handles, [pool] and [redisClient]; [D] is the
    type of the data behind the pool. *)
Record world (D : Type) := {
  pool : D;
  redisClient : option redis_client
}.

Arguments pool {D} w.
Arguments redisClient {D} w.
Arguments Build_world {D} pool redisClient.

Section Server.

Context `{Store}.

(** An asynchronous function: from the process state to the promise it
    returns, settled or not, and the state it leaves. *)
Definition M (A : Type) : Type := world db -> promise A * world db.

Definition ret {A} (a : A) : M A := fun w => (Fulfilled a, w).

(** [const a = await m; k a]: a promise that never settles is awaited for
    ever. *)
Definition bind {A B} (m : M A) (k : A -> M B) : M B :=
  fun w =>
    match m w with
    | (Fulfilled a, w') => k a w'
    | (Rejected e, w') => (Rejected e, w')
    | (Pending, w') => (Pending, w')
    end.

Definition throw {A} (e : exn) : M A := fun w => (Rejected e, w).

(** [try { m } catch (error) { h error }] *)
Definition try_catch {A} (m : M A) (h : exn -> M A) : M A :=
  fun w =>
    match m w with
    | (Fulfilled a, w') => (Fulfilled a, w')
    | (Rejected e, w') => h e w'
    | (Pending, w') => (Pending, w')
    end.

(** Synchronous code inside the function. *)
Definition lift {A} (c : completion A) : M A := fun w => (settled c, w).

End Server.

Arguments M {_} A.

#[global] Instance M_ret `{Store} : MRet M := @ret _.
#[global] Instance M_bind `{Store} : MBind M := fun A B k m => bind m k.

(** ** Responses

    [res.status(n).json(x)] sends the JSON text of [x]; the body is kept as
    the value that text denotes. *)

Record response := {
  status : Z;
  body : value
}.

Definition res_json (code : Z) (x : value) : response :=
  {| status := code; body := Json.json_clone x |}.

Definition error_body (msg : string) : value := VObj [(js "error", VStr (js msg))].

(** [parseInt(process.env.CACHE_TTL) || 300], with the variable unset. *)
Definition CACHE_TTL : Z := 300.

Section Routes.

Context `{Store}.

(** *** Access to the two handles *)

(** [redisClient?.isOpen], as a condition. *)
Definition redis_isOpen : M bool :=
  fun w => (Fulfilled (match redisClient w with
                    | Some c => isOpen c
                    | None => false
                    end), w).

(** A command on [redisClient]. *)
Definition redis_cmd {A} (f : redis_client -> promise A * redis_client) : M A :=
  fun w =>
    match redisClient w with
    | Some c =>
        let '(r, c') := f c in
        (r, {| pool := pool w; redisClient := Some c' |})
    | None => (Rejected TypeError, w)
    end.

Definition query_select_all : M (list value) :=
  fun w => (settled (select_all (pool w)), w).

Definition query_select_by_id (id : value) : M (list value) :=
  fun w => (settled (select_by_id (pool w) id), w).

(** A statement that writes: the data changes when it returns. *)
Definition query_write (stmt : db -> completion (Z * db)) : M Z :=
  fun w =>
    match stmt (pool w) with
    | Normal (n, d) => (Fulfilled n, {| pool := d; redisClient := redisClient w |})
    | Throw e => (Rejected e, w)
    end.

(** *** Cache helper functions (lines 220-251) *)

Definition getFromCache (key : jsstring) : M value :=
  open ← redis_isOpen;
  if negb open then ret VNull
  else
    try_catch
      (cached ← redis_cmd (Redis.get key);
       match cached with
       | Some t => lift (Json.parse t)
       | None => ret VNull
       end)
      (fun _ => ret VNull).

Definition setToCache (key : jsstring) (data : value) (ttl : Z) : M unit :=
  open ← redis_isOpen;
  if negb open then ret tt
  else
    try_catch
      (redis_cmd (Redis.setEx key ttl (Json.stringify data)))
      (fun _ => ret tt).

Definition invalidateCache (pattern : jsstring) : M unit :=
  open ← redis_isOpen;
  if negb open then ret tt
  else
    try_catch
      (keys ← redis_cmd (Redis.keys pattern);
       (if (0 <? length keys)%nat then redis_cmd (Redis.del keys) else ret tt);;
       redis_cmd (Redis.del [js "books:all"]))
      (fun _ => ret tt).

(** The default argument of [invalidateCache]. *)
Definition default_pattern : jsstring := js "books:*".

(** *** Book routes (lines 349-672) *)

(** [const { title, author, isbn, price, stock } = req.body] *)
Definition destructure (b : value) : completion (value * value * value * value * value) :=
  match b with
  | VUndefined | VNull => Throw TypeError
  | _ => Normal (Obj.get (js "title") b, Obj.get (js "author") b,
                 Obj.get (js "isbn") b, Obj.get (js "price") b,
                 Obj.get (js "stock") b)
  end.

(** GET /api/books *)
Definition get_books : M response :=
  try_catch
    (cached ← getFromCache (js "books:all");
     if JS.truthy cached then ret (res_json 200 cached)
     else
       rows ← query_select_all;
       setToCache (js "books:all") (VArr rows) CACHE_TTL;;
       ret (res_json 200 (VArr rows)))
    (fun _ => ret (res_json 500 (error_body "Failed to fetch books"))).

(** GET /api/books/:id *)
Definition get_book (id : jsstring) : M response :=
  try_catch
    (let cacheKey := js "books:" ++ id in
     cached ← getFromCache cacheKey;
     if JS.truthy cached then
       ret (res_json 200
              (VObj (Obj.set_prop (js "fromCache") (VBool true) (Obj.spread cached))))
     else
       rows ← query_select_by_id (VStr id);
       match rows with
       | [] => ret (res_json 404 (error_body "Book not found"))
       | row0 :: _ =>
           setToCache cacheKey row0 CACHE_TTL;;
           ret (res_json 200 row0)
       end)
    (fun _ => ret (res_json 500 (error_body "Failed to fetch book"))).

(** [a && !f(x)]: [f] is called only when [a] holds. *)
Definition and_not (a : bool) (c : completion bool) : completion bool :=
  if a then bind_c c (fun ok => Normal (negb ok)) else Normal false.

(** The checks of POST /api/books (lines 468-490), in order: the
    response of the first one that fails, if any. *)
Definition create_checks (title author isbn price stock : value)
  : completion (option response) :=
  if negb (JS.truthy title) || negb (JS.truthy author) || negb (JS.truthy isbn) then
    Normal (Some (res_json 400 (error_body "Title, author, and ISBN are required")))
  else
    bind_c (validateISBN isbn) (fun ok =>
    if negb ok then
      Normal (Some (res_json 400
        (error_body "Invalid ISBN format. Must be ISBN-10 or ISBN-13")))
    else
      bind_c (and_not (JS.is_defined price) (validatePrice price)) (fun bad_price =>
      if bad_price then
        Normal (Some (res_json 400
          (error_body "Invalid price. Must be between 0 and 10000")))
      else
        bind_c (and_not (JS.is_defined stock) (validateStock stock)) (fun bad_stock =>
        if bad_stock then
          Normal (Some (res_json 400
            (error_body "Invalid stock. Must be between 0 and 100000")))
        else Normal None))).

(** POST /api/books *)
Definition post_book (req_body : value) : M response :=
  try_catch
    ('(title, author, isbn, price, stock) ← lift (destructure req_body);
     rejected ← lift (create_checks title author isbn price stock);
     match rejected with
     | Some r => ret r
     | None =>
         insertId ← query_write (fun d =>
           insert_book d title author isbn
             (JS.or_else price (VNum (Fin 0))) (JS.or_else stock (VNum (Fin 0))));
         invalidateCache default_pattern;;
         ret (res_json 201
                (VObj [(js "id", VNum (Num.of_Z insertId));
                       (js "title", title);
                       (js "author", author);
                       (js "isbn", isbn);
                       (js "price", price);
                       (js "stock", stock);
                       (js "message", VStr (js "Book created successfully"))]))
     end)
    (fun error =>
       match error with
       | CodedError code =>
           if jsstring_eqb code (js "ER_DUP_ENTRY") then
             ret (res_json 409 (error_body "Book with this ISBN already exists"))
           else ret (res_json 500 (error_body "Failed to create book"))
       | _ => ret (res_json 500 (error_body "Failed to create book"))
       end).

(** The checks of PUT /api/books/:id (lines 570-586). *)
Definition update_checks (isbn price stock : value) : completion (option response) :=
  bind_c (and_not (JS.truthy isbn) (validateISBN isbn)) (fun bad_isbn =>
  if bad_isbn then
    Normal (Some (res_json 400
      (error_body "Invalid ISBN format. Must be ISBN-10 or ISBN-13")))
  else
    bind_c (and_not (JS.is_defined price) (validatePrice price)) (fun bad_price =>
    if bad_price then
      Normal (Some (res_json 400
        (error_body "Invalid price. Must be between 0 and 10000")))
    else
      bind_c (and_not (JS.is_defined stock) (validateStock stock)) (fun bad_stock =>
      if bad_stock then
        Normal (Some (res_json 400
          (error_body "Invalid stock. Must be between 0 and 100000")))
      else Normal None))).

(** PUT /api/books/:id *)
Definition put_book (id : jsstring) (req_body : value) : M response :=
  try_catch
    ('(title, author, isbn, price, stock) ← lift (destructure req_body);
     rejected ← lift (update_checks isbn price stock);
     match rejected with
     | Some r => ret r
     | None =>
         affectedRows ← query_write (fun d =>
           update_book d title author isbn price stock (VStr id));
         if affectedRows =? 0 then
           ret (res_json 404 (error_body "Book not found"))
         else
           invalidateCache default_pattern;;
           id_number ← lift (JS.parseInt (VStr id));
           ret (res_json 200
                  (VObj [(js "id", VNum id_number);
                         (js "title", title);
                         (js "author", author);
                         (js "isbn", isbn);
                         (js "price", price);
                         (js "stock", stock);
                         (js "message", VStr (js "Book updated successfully"))]))
     end)
    (fun _ => ret (res_json 500 (error_body "Failed to update book"))).

(** DELETE /api/books/:id *)
Definition delete_book_route (id : jsstring) : M response :=
  try_catch
    (affectedRows ← query_write (fun d => delete_book d (VStr id));
     if affectedRows =? 0 then
       ret (res_json 404 (error_body "Book not found"))
     else
       invalidateCache default_pattern;;
       ret (res_json 200 (VObj [(js "message", VStr (js "Book deleted successfully"))])))
    (fun _ => ret (res_json 500 (error_body "Failed to delete book"))).

(** *** Requests *)

Inductive request :=
| GetBooks
| GetBook (id : jsstring)
| PostBook (req_body : value)
| PutBook (id : jsstring) (req_body : value)
| DeleteBook (id : jsstring).

Definition handle (r : request) : M response :=
  match r with
  | GetBooks => get_books
  | GetBook id => get_book id
  | PostBook b => post_book b
  | PutBook id b => put_book id b
  | DeleteBook id => delete_book_route id
  end.

End Routes.

(** ** Start-up (lines 182-217 and 695-723)

    The environment decides what each connection attempt to the database
    meets: the pool constructor throwing, [pool.getConnection()] rejecting,
    or a connection; and what [redisClient.connect()] meets: a connection,
    a rejection, or a server that stays unreachable, in which case the
    client retries without end and the promise never settles.  What the
    process does is recorded as a trace. *)

Module Startup.

Inductive attempt :=
| CreatePoolThrows
| ConnectionFails
| ConnectionSucceeds.

Inductive cache_attempt :=
| CacheConnects
| CacheConnectRejects
| CacheUnreachable.

Inductive event :=
| Connect
| Sleep (ms : Z)
| Exit (code : Z)
| InitRedis
| Listen.

(** [pool] is [undefined] until [mysql.createPool] has returned once. *)
Record state := {
  pool_defined : bool;
  trace : list event
}.

Definition emit (e : event) (st : state) : state :=
  {| pool_defined := pool_defined st; trace := trace st ++ [e] |}.

(** [initDatabase]: the assignment to [pool] precedes the connection. *)
Definition initDatabase (a : attempt) (st : state) : bool * state :=
  match a with
  | CreatePoolThrows => (false, emit Connect st)
  | ConnectionFails =>
      (false, emit Connect {| pool_defined := true; trace := trace st |})
  | ConnectionSucceeds =>
      (true, emit Connect {| pool_defined := true; trace := trace st |})
  end.

(** The [while (retries > 0)] loop; [n] counts the attempts made. *)
Fixpoint connect_loop (retries : nat) (env : nat -> attempt) (n : nat) (st : state) : state :=
  match retries with
  | O => st
  | S retries' =>
      let '(connected, st') := initDatabase (env n) st in
      if connected then st'
      else connect_loop retries' env (S n) (emit (Sleep 5000) st')
  end.

(** [initRedis]: it catches what [connect()] rejects with and returns
    [false]; [None] when [connect()] never settles. *)
Definition initRedis (c : cache_attempt) (st : state) : option bool * state :=
  match c with
  | CacheConnects => (Some true, emit InitRedis st)
  | CacheConnectRejects => (Some false, emit InitRedis st)
  | CacheUnreachable => (None, emit InitRedis st)
  end.

(** [startServer]: [app.listen] comes after [await initRedis()]. *)
Definition startServer (env : nat -> attempt) (cache : cache_attempt) : state :=
  let st := connect_loop 5 env 0 {| pool_defined := false; trace := [] |} in
  if negb (pool_defined st) then emit (Exit 1) st
  else
    match initRedis cache st with
    | (Some _, st') => emit Listen st'
    | (None, st') => st'
    end.

Definition attempts (st : state) : nat :=
  length (List.filter (fun e => match e with Connect => true | _ => false end) (trace st)).

Definition listening (st : state) : bool :=
  existsb (fun e => match e with Listen => true | _ => false end) (trace st).

Definition exited (st : state) : bool :=
  existsb (fun e => match e with Exit _ => true | _ => false end) (trace st).

End Startup.

(** ** A reference store

    The [books] table of docs/API.md, for parameters that are JSON
    scalars, under the strict SQL mode MySQL 8 starts with:

    [id INT PRIMARY KEY AUTO_INCREMENT, title VARCHAR(255) NOT NULL,
     author VARCHAR(255) NOT NULL, isbn VARCHAR(20) UNIQUE NOT NULL,
     price DECIMAL(10,2) DEFAULT 0.00, stock INT DEFAULT 0,
     created_at TIMESTAMP, updated_at TIMESTAMP].

    It serves to run the routes on concrete data; what is proved of the
    routes in general is proved for every [Store]. *)

Module RefStore.

Record book := {
  id : Z;
  title : jsstring;
  author : jsstring;
  isbn : jsstring;
  price : option Q;
  stock : option Z;
  created_at : Z;
  updated_at : Z
}.

Record state := {
  reachable : bool;
  books : list book;
  auto_increment : Z;
  now : Z
}.

(** *** Parameters as SQL literals

    [pool.query] formats its parameters on the client.  Arrays and
    objects expand to lists and assignments and non-finite Numbers to
    bare words; the reference store refuses them. *)

Inductive literal :=
| LNull
| LNum (text : jsstring)
| LStr (s : jsstring).

Definition escape (v : value) : option literal :=
  match v with
  | VUndefined | VNull => Some LNull
  | VBool b => Some (LNum (if b then js "1" else js "0"))
  | VNum (Fin q) => Some (LNum (JS.number_to_string (Fin q)))
  | VNum _ => None
  | VStr s => Some (LStr s)
  | VArr _ | VObj _ => None
  end.

(** The exact value of a text that is, as a whole, a decimal literal. *)
Definition exact_decimal (s : jsstring) : option Q :=
  let '(neg, s1) := JS.read_sign s in
  let '(ip, r1) := JS.span Regex.digit s1 in
  let '(fp, r2) :=
    match r1 with
    | c :: t => if N.eqb c (cu ".") then JS.span Regex.digit t else ([], r1)
    | [] => ([], r1)
    end in
  let '(e, r3) :=
    match r2 with
    | c :: t =>
        if N.eqb c (cu "e") || N.eqb c (cu "E") then
          let '(eneg, t') := JS.read_sign t in
          let '(ds, rest) := JS.span Regex.digit t' in
          match ds with
          | [] => (0, r2)
          | _ => (if eneg then - JS.digits_val ds else JS.digits_val ds, rest)
          end
        else (0, r2)
    | [] => (0, r2)
    end in
  match ip ++ fp, r3 with
  | _ :: _, [] =>
      Some (JS.signed neg (inject_Z (JS.digits_val (ip ++ fp))
                           * Num.pow10 (e - Z.of_nat (length fp)))%Q)
  | _, _ => None
  end.

Definition numeric (l : literal) : option Q :=
  match l with
  | LNull => None
  | LNum t | LStr t => exact_decimal t
  end.

(** Nearest integer, ties away from zero. *)
Definition round_half_away (q : Q) : Z :=
  if Qle_bool 0 q then Qfloor (q + (1 # 2)) else - Qfloor (- q + (1 # 2)).

Definition sql_error (code : string) : exn := CodedError (js code).

Definition to_varchar (n : nat) (l : literal) : completion jsstring :=
  match l with
  | LNull => Throw (sql_error "ER_BAD_NULL_ERROR")
  | LNum t | LStr t =>
      if (length t <=? n)%nat then Normal t else Throw (sql_error "ER_DATA_TOO_LONG")
  end.

Definition to_decimal_10_2 (l : literal) : completion (option Q) :=
  match l with
  | LNull => Normal None
  | _ =>
      match numeric l with
      | None => Throw (sql_error "ER_TRUNCATED_WRONG_VALUE_FOR_FIELD")
      | Some q =>
          let c := round_half_away (q * 100) in
          if Z.abs c <? 10 ^ 10 then Normal (Some (Qred (c # 100)))
          else Throw (sql_error "ER_WARN_DATA_OUT_OF_RANGE")
      end
  end.

Definition to_int (l : literal) : completion (option Z) :=
  match l with
  | LNull => Normal None
  | _ =>
      match numeric l with
      | None => Throw (sql_error "ER_TRUNCATED_WRONG_VALUE_FOR_FIELD")
      | Some q =>
          let n := round_half_away q in
          if (- 2 ^ 31 <=? n) && (n <? 2 ^ 31) then Normal (Some n)
          else Throw (sql_error "ER_WARN_DATA_OUT_OF_RANGE")
      end
  end.

(** [WHERE id = ?]: the parameter is compared as a number; a string
    counts for its numeric prefix, which UPDATE and DELETE (not SELECT)
    refuse when it is not the whole string. *)
Definition id_filter (strict : bool) (l : literal) : completion (book -> bool) :=
  match l with
  | LNull => Normal (fun _ => false)
  | LNum t =>
      match exact_decimal t with
      | Some q => Normal (fun b => Qeq_bool (inject_Z (id b)) q)
      | None => Throw (sql_error "ER_PARSE_ERROR")
      end
  | LStr s =>
      match exact_decimal s with
      | Some q => Normal (fun b => Qeq_bool (inject_Z (id b)) q)
      | None =>
          if strict then Throw (sql_error "ER_TRUNCATED_WRONG_VALUE")
          else
            let q := match JS.parseFloat_string s with Fin q => q | _ => 0%Q end in
            Normal (fun b => Qeq_bool (inject_Z (id b)) q)
      end
  end.

(** *** Rows as the driver returns them *)

Definition two (n : Z) : jsstring := JS.digit_char (n / 10) :: [JS.digit_char (n mod 10)].

Definition four (n : Z) : jsstring := two (n / 100) ++ two (n mod 100).

(** [Date.prototype.toJSON] of a time stamp given in seconds since the
    epoch (years 0000 to 9999). *)
Definition iso (t : Z) : jsstring :=
  let days := t / 86400 in
  let secs := t mod 86400 in
  let z := days + 719468 in
  let era := z / 146097 in
  let doe := z - era * 146097 in
  let yoe := (doe - doe / 1460 + doe / 36524 - doe / 146096) / 365 in
  let doy := doe - (365 * yoe + yoe / 4 - yoe / 100) in
  let mp := (5 * doy + 2) / 153 in
  let d := doy - (153 * mp + 2) / 5 + 1 in
  let m := if mp <? 10 then mp + 3 else mp - 9 in
  let y := yoe + era * 400 + (if m <=? 2 then 1 else 0) in
  four y ++ js "-" ++ two m ++ js "-" ++ two d ++ js "T"
    ++ two (secs / 3600) ++ js ":" ++ two (secs mod 3600 / 60) ++ js ":"
    ++ two (secs mod 60) ++ js ".000Z".

(** A DECIMAL(10,2) column arrives as a string with two decimals. *)
Definition decimal_text (q : Q) : jsstring :=
  let c := round_half_away (q * 100) in
  (if c <? 0 then js "-" else [])
    ++ JS.Z_digits (Z.abs c / 100) ++ js "." ++ two (Z.abs c mod 100).

Definition row_fields (b : book) : list (jsstring * value) :=
  [(js "id", VNum (Num.of_Z (id b)));
   (js "title", VStr (title b));
   (js "author", VStr (author b));
   (js "isbn", VStr (isbn b));
   (js "price", match price b with Some q => VStr (decimal_text q) | None => VNull end);
   (js "stock", match stock b with Some n => VNum (Num.of_Z n) | None => VNull end);
   (js "created_at", VStr (iso (created_at b)));
   (js "updated_at", VStr (iso (updated_at b)))].

Definition row (b : book) : value := VObj (row_fields b).

(** Stable insertion sort, newest first. *)
Fixpoint insert_desc (b : book) (l : list book) : list book :=
  match l with
  | [] => [b]
  | x :: t =>
      if created_at x <=? created_at b then b :: l else x :: insert_desc b t
  end.

Definition order_by_created_at_desc (l : list book) : list book :=
  fold_right insert_desc [] l.

(** *** The five statements *)

Definition unreachable : exn := sql_error "ECONNREFUSED".

Definition with_books (st : state) (l : list book) (next : Z) : state :=
  {| reachable := reachable st; books := l; auto_increment := next; now := now st |}.

Definition escaped (v : value) : completion literal :=
  match escape v with
  | Some l => Normal l
  | None => Throw (sql_error "ER_PARSE_ERROR")
  end.

Definition select_all (st : state) : completion (list value) :=
  if reachable st then Normal (map row (order_by_created_at_desc (books st)))
  else Throw unreachable.

Definition select_by_id (st : state) (p : value) : completion (list value) :=
  if reachable st then
    bind_c (escaped p) (fun l =>
    bind_c (id_filter false l) (fun f =>
    Normal (map row (List.filter f (books st)))))
  else Throw unreachable.

Definition isbn_taken (s : jsstring) (l : list book) : bool :=
  existsb (fun b => jsstring_eqb (isbn b) s) l.

Definition insert (st : state) (p_title p_author p_isbn p_price p_stock : value)
  : completion (Z * state) :=
  if reachable st then
    bind_c (escaped p_title) (fun l1 =>
    bind_c (escaped p_author) (fun l2 =>
    bind_c (escaped p_isbn) (fun l3 =>
    bind_c (escaped p_price) (fun l4 =>
    bind_c (escaped p_stock) (fun l5 =>
    bind_c (to_varchar 255 l1) (fun t =>
    bind_c (to_varchar 255 l2) (fun a =>
    bind_c (to_varchar 20 l3) (fun i =>
    bind_c (to_decimal_10_2 l4) (fun p =>
    bind_c (to_int l5) (fun s =>
    if isbn_taken i (books st) then Throw (sql_error "ER_DUP_ENTRY")
    else
      let b := {| id := auto_increment st; title := t; author := a; isbn := i;
                  price := p; stock := s;
                  created_at := now st; updated_at := now st |} in
      Normal (auto_increment st,
              with_books st (books st ++ [b]) (auto_increment st + 1))))))))))))
  else Throw unreachable.

Definition update (st : state) (p_title p_author p_isbn p_price p_stock p_id : value)
  : completion (Z * state) :=
  if reachable st then
    bind_c (escaped p_title) (fun l1 =>
    bind_c (escaped p_author) (fun l2 =>
    bind_c (escaped p_isbn) (fun l3 =>
    bind_c (escaped p_price) (fun l4 =>
    bind_c (escaped p_stock) (fun l5 =>
    bind_c (escaped p_id) (fun l6 =>
    bind_c (id_filter true l6) (fun f =>
    match List.filter f (books st) with
    | [] => Normal (0, st)
    | matched =>
        bind_c (to_varchar 255 l1) (fun t =>
        bind_c (to_varchar 255 l2) (fun a =>
        bind_c (to_varchar 20 l3) (fun i =>
        bind_c (to_decimal_10_2 l4) (fun p =>
        bind_c (to_int l5) (fun s =>
        if isbn_taken i (List.filter (fun b => negb (f b)) (books st))
           || (1 <? length matched)%nat
        then Throw (sql_error "ER_DUP_ENTRY")
        else
          let upd b :=
            if f b then
              {| id := id b; title := t; author := a; isbn := i;
                 price := p; stock := s;
                 created_at := created_at b; updated_at := now st |}
            else b in
          Normal (Z.of_nat (length matched),
                  with_books st (map upd (books st)) (auto_increment st)))))))
    end)))))))
  else Throw unreachable.

Definition delete (st : state) (p_id : value) : completion (Z * state) :=
  if reachable st then
    bind_c (escaped p_id) (fun l =>
    bind_c (id_filter true l) (fun f =>
    Normal (Z.of_nat (length (List.filter f (books st))),
            with_books st (List.filter (fun b => negb (f b)) (books st))
              (auto_increment st))))
  else Throw unreachable.

End RefStore.

#[global] Instance ref_store : Store := {|
  db := RefStore.state;
  select_all := RefStore.select_all;
  select_by_id := RefStore.select_by_id;
  insert_book := RefStore.insert;
  update_book := RefStore.update;
  delete_book := RefStore.delete
|}.

(** ** Auxiliary definitions used in the proofs *)

(** The iteration inside [rmatch (RRep n r)]. *)
Definition rep (r : regex) : nat -> list (list N) -> list (list N) :=
  fix rep (k : nat) (acc : list (list N)) : list (list N) :=
    match k with
    | O => acc
    | S k' => rep k' (flat_map (rmatch r) acc)
    end.

Definition is_nil (l : list N) : bool := match l with [] => true | _ => false end.

(** The two loops inside [Json.json_clone]. *)
Fixpoint clone_props (ps : list (jsstring * value)) : list (jsstring * value) :=
  match ps with
  | [] => []
  | (k, VUndefined) :: rest => clone_props rest
  | (k, x) :: rest => (k, Json.json_clone x) :: clone_props rest
  end.

Definition clone_item (x : value) : value :=
  match x with
  | VUndefined => VNull
  | _ => Json.json_clone x
  end.

(** The loop inside [JS.to_string] on an array. *)
Fixpoint join_items (l : list value) : completion (list N) :=
  match l with
  | [] => Normal []
  | x :: rest =>
      match (match x with
             | VUndefined | VNull => Normal []
             | _ => JS.to_string x
             end) with
      | Throw e => Throw e
      | Normal p =>
          match rest with
          | [] => Normal p
          | _ =>
              match join_items rest with
              | Throw e => Throw e
              | Normal q => Normal (p ++ js "," ++ q)
              end
          end
      end
  end.

(** ** Cache states

    [connected w] is the test [redisClient?.isOpen] of the helpers. *)

Definition connected {D} (w : world D) : bool :=
  match redisClient w with
  | Some c => isOpen c
  | None => false
  end.

(** The same process state with the cache client closed. *)
Definition disconnect {D} (w : world D) : world D :=
  {| pool := pool w;
     redisClient :=
       match redisClient w with
       | Some c => Some {| isOpen := false; keyspace := keyspace c; faults := faults c |}
       | None => None
       end |}.

(** What the cache holds under a key ([None] without a client). *)
Definition cached_text {D} (w : world D) (key : jsstring) : option Json.text :=
  match redisClient w with
  | Some c => keyspace c !! key
  | None => None
  end.

(** The body sent on a hit of GET /api/books/:id for the cached value
    [v]: [{ ...v, fromCache: true }]. *)
Definition from_cache (v : value) : value :=
  Json.json_clone (VObj (Obj.set_prop (js "fromCache") (VBool true) (Obj.spread v))).

(** Every entry of the cache is the JSON copy of what the store returns
    now: the collection under [books:all], the row of [id] under
    [books:id]. *)
Definition coherent `{Store} (w : world db) : Prop :=
  forall key t,
    cached_text w key = Some t ->
    (key = js "books:all"
     /\ exists rows,
          select_all (pool w) = Normal rows
          /\ t = Json.JsonText (Json.json_clone (VArr rows)))
    \/ (exists id row rest,
          key = js "books:" ++ id
          /\ id <> js "all"
          /\ select_by_id (pool w) (VStr id) = Normal (row :: rest)
          /\ t = Json.JsonText (Json.json_clone row)).

Definition is_write (req : request) : bool :=
  match req with
  | PostBook _ | PutBook _ _ | DeleteBook _ => true
  | _ => false
  end.

(** ** Writes: checks, statement, and the mapping of store failures

    For a write request: what its checks decide, the statement it sends to
    the store once they have passed, how the outcome of the statement is
    classified (section 7 of the specification) and which response section
    6 assigns to each failure. *)

Inductive store_failure :=
| NotFound
| Conflict
| ConnectionError.

Section Writes.

Context `{Store}.

Definition checks (req : request) : completion (option response) :=
  match req with
  | PostBook b =>
      match destructure b with
      | Normal (title, author, isbn, price, stock) =>
          create_checks title author isbn price stock
      | Throw e => Throw e
      end
  | PutBook _ b =>
      match destructure b with
      | Normal (_, _, isbn, price, stock) => update_checks isbn price stock
      | Throw e => Throw e
      end
  | _ => Normal None
  end.

Definition statement (req : request) (d : db) : option (completion (Z * db)) :=
  match req with
  | PostBook b =>
      match destructure b with
      | Normal (title, author, isbn, price, stock) =>
          Some (insert_book d title author isbn
                  (JS.or_else price (VNum (Fin 0))) (JS.or_else stock (VNum (Fin 0))))
      | Throw _ => None
      end
  | PutBook id b =>
      match destructure b with
      | Normal (title, author, isbn, price, stock) =>
          Some (update_book d title author isbn price stock (VStr id))
      | Throw _ => None
      end
  | DeleteBook id => Some (delete_book d (VStr id))
  | _ => None
  end.

(** A driver error is a Conflict when its code is ER_DUP_ENTRY, a
    ConnectionError (pool, network, or anything else the store refuses)
    otherwise; an update or delete that matches no row is NotFound. *)
Definition classify (req : request) (out : completion (Z * db)) : option store_failure :=
  match out with
  | Throw (CodedError code) =>
      if jsstring_eqb code (js "ER_DUP_ENTRY") then Some Conflict
      else Some ConnectionError
  | Throw _ => Some ConnectionError
  | Normal (n, _) =>
      match req with
      | PutBook _ _ | DeleteBook _ => if n =? 0 then Some NotFound else None
      | _ => None
      end
  end.

(** Section 6: POST answers 409 on Conflict and 500 otherwise; PUT and
    DELETE answer 404 on NotFound and 500 otherwise. *)
Definition http_error (req : request) (f : store_failure) : response :=
  match req, f with
  | PostBook _, Conflict => res_json 409 (error_body "Book with this ISBN already exists")
  | PostBook _, _ => res_json 500 (error_body "Failed to create book")
  | PutBook _ _, NotFound => res_json 404 (error_body "Book not found")
  | PutBook _ _, _ => res_json 500 (error_body "Failed to update book")
  | DeleteBook _, NotFound => res_json 404 (error_body "Book not found")
  | DeleteBook _, _ => res_json 500 (error_body "Failed to delete book")
  | GetBooks, _ => res_json 500 (error_body "Failed to fetch books")
  | GetBook _, NotFound => res_json 404 (error_body "Book not found")
  | GetBook _, _ => res_json 500 (error_body "Failed to fetch book")
  end.

(** The store after a statement: changed only when it returned. *)
Definition store_after (d : db) (out : completion (Z * db)) : db :=
  match out with
  | Normal (_, d') => d'
  | Throw _ => d
  end.

End Writes.

(** ** Sample data for the concrete runs *)

Module Sample.

Definition book_body (title author : string) (isbn price stock : value) : value :=
  VObj [(js "title", VStr (js title)); (js "author", VStr (js author));
        (js "isbn", isbn); (js "price", price); (js "stock", stock)].

(** [{"title": "1984", "author": "George Orwell",
      "isbn": "9780451524935", "price": 15.99, "stock": 100}] *)
Definition orwell : value :=
  book_body "1984" "George Orwell" (VStr (js "9780451524935"))
    (VNum (Num.round64 (1599 # 100))) (VNum (Fin 100)).

(** [{"title": "Ulysses", "author": "James Joyce", "isbn": "0451524935"}]:
    no price, no stock. *)
Definition joyce_bare : value :=
  VObj [(js "title", VStr (js "Ulysses")); (js "author", VStr (js "James Joyce"));
        (js "isbn", VStr (js "0451524935"))].

(** The same ISBN sent as a JSON number. *)
Definition numeric_isbn : value :=
  VObj [(js "title", VStr (js "Ulysses")); (js "author", VStr (js "James Joyce"));
        (js "isbn", VNum (Fin 451524935))].

(** [{"title": "Animal Farm", "author": "George Orwell",
      "isbn": "9780451524935", "price": 9.5, "stock": 3}]:
    the ISBN of [orwell]. *)
Definition orwell_again : value :=
  book_body "Animal Farm" "George Orwell" (VStr (js "9780451524935"))
    (VNum (Fin (19 # 2))) (VNum (Fin 3)).

Definition joyce : value :=
  book_body "Ulysses" "James Joyce" (VStr (js "0451524935"))
    (VNum (Fin 12)) (VNum (Fin 7)).

Definition empty_db : RefStore.state :=
  {| RefStore.reachable := true; RefStore.books := [];
     RefStore.auto_increment := 1; RefStore.now := 1768039200 |}.

Definition open_client : redis_client :=
  {| isOpen := true; keyspace := ∅; faults := [] |}.

(** A freshly started server: empty table, cache connected and empty. *)
Definition fresh : world RefStore.state :=
  {| pool := empty_db; redisClient := Some open_client |}.

Definition orwell_row : RefStore.book :=
  {| RefStore.id := 1; RefStore.title := js "1984";
     RefStore.author := js "George Orwell"; RefStore.isbn := js "9780451524935";
     RefStore.price := Some (1599 # 100)%Q; RefStore.stock := Some 100;
     RefStore.created_at := 1768039200; RefStore.updated_at := 1768039200 |}.

(** The row that [joyce_bare] creates in an empty table. *)
Definition ulysses_at_0 : RefStore.book :=
  {| RefStore.id := 1; RefStore.title := js "Ulysses";
     RefStore.author := js "James Joyce"; RefStore.isbn := js "0451524935";
     RefStore.price := Some 0%Q; RefStore.stock := Some 0;
     RefStore.created_at := 1768039200; RefStore.updated_at := 1768039200 |}.

(** One book in the table, and its cached copy under [books:1], as left
    by POST [orwell] followed by GET /api/books/1. *)
Definition orwell_cached : world RefStore.state :=
  {| pool := RefStore.with_books empty_db [orwell_row] 2;
     redisClient :=
       Some {| isOpen := true;
               keyspace := {[ js "books:1" := Json.JsonText (RefStore.row orwell_row) ]};
               faults := [] |} |}.

(** The same cache over an empty table: what is left when book 1 is
    deleted while the KEYS command of the invalidation fails. *)
Definition stale : world RefStore.state :=
  {| pool := RefStore.with_books empty_db [] 2;
     redisClient := redisClient orwell_cached |}.

(** A fresh server whose fifth cache command will fail. *)
Definition fresh_failing_fifth : world RefStore.state :=
  {| pool := empty_db;
     redisClient :=
       Some {| isOpen := true; keyspace := ∅;
               faults := [Replies; Replies; Replies; Replies; Fails] |} |}.

(** The responses to a sequence of requests, and the final state. *)
Fixpoint serve (rs : list request) (w : world RefStore.state)
  : list (promise response) * world RefStore.state :=
  match rs with
  | [] => ([], w)
  | r :: rest =>
      let '(x, w') := handle r w in
      let '(xs, w'') := serve rest w' in
      (x :: xs, w'')
  end.

Definition statuses (rs : list (promise response)) : list Z :=
  map (fun c => match c with Fulfilled r => status r | _ => -1 end) rs.

End Sample.

(** ** Stalling commands

    [stalls w]: the schedule of the client holds a command that never
    settles. *)

Definition is_stall (f : fate) : bool :=
  match f with Stalls => true | _ => false end.

Definition stalls {D} (w : world D) : bool :=
  match redisClient w with
  | Some c => existsb is_stall (faults c)
  | None => false
  end.

(** The same process state, the commands to come meeting [fs]. *)
Definition with_faults {D} (fs : list fate) (w : world D) : world D :=
  {| pool := pool w;
     redisClient :=
       match redisClient w with
       | Some c => Some {| isOpen := isOpen c; keyspace := keyspace c; faults := fs |}
       | None => None
       end |}.

(** What the next command meets. *)
Definition next_fate {D} (w : world D) : fate :=
  match redisClient w with
  | Some c => fst (Redis.next_fault c)
  | None => Replies
  end.

(** What a cache helper can do from the state [w]: it returns, or it
    waits for ever on a command that stalls; it never throws, and it leaves
    the store handle as it is. *)
Definition helper_outcome {D A} (w : world D) (out : promise A * world D) : Prop :=
  pool (snd out) = pool w
  /\ connected (snd out) = connected w
  /\ (stalls w = false -> stalls (snd out) = false)
  /\ match fst out with
     | Fulfilled _ => True
     | Rejected _ => False
     | Pending => stalls w = true /\ connected w = true
     end.

(** ** Normal operation of the cache

    A process state with an open cache client on which no command is
    scheduled to fail. *)

Definition normal_world {D} (d : D) (m : gmap (list N) Json.text) : world D :=
  {| pool := d;
     redisClient := Some {| isOpen := true; keyspace := m; faults := [] |} |}.

(** An open client with the key space [m], its commands to come meeting
    [fs]. *)
Definition open_world {D} (d : D) (m : gmap (list N) Json.text) (fs : list fate)
  : world D :=
  {| pool := d;
     redisClient := Some {| isOpen := true; keyspace := m; faults := fs |} |}.

(** The key space [invalidateCache pattern] leaves: the keys [KEYS]
    returned are deleted (when there are any), then [books:all]. *)
Definition invalidated (pattern : jsstring) (m : gmap (list N) Json.text)
  : gmap (list N) Json.text :=
  let ks := List.filter (Redis.glob pattern) (map fst (map_to_list m)) in
  foldr delete (if (0 <? length ks)%nat then foldr delete m ks else m) [js "books:all"].

(** The value a lookup yields for what the cache holds under a key. *)
Definition parsed (t : option Json.text) : value :=
  match t with
  | Some (Json.JsonText v) => v
  | _ => VNull
  end.

(** An UPDATE or DELETE that matches no row changes nothing. *)
Definition zero_rows_change_nothing `{Store} : Prop :=
  (forall d t a i p s id d', update_book d t a i p s id = Normal (0, d') -> d' = d)
  /\ (forall d id d', delete_book d id = Normal (0, d') -> d' = d).

(** ** Configuration (lines 137, 150, 153)

    [parseInt(process.env.X) || fallback]: the variable is a string or
    undefined. *)

Module Config.

Definition env_int (x : option jsstring) (fallback : Z) : completion value :=
  bind_c (JS.parseInt (match x with Some s => VStr s | None => VUndefined end))
    (fun n => Normal (JS.or_else (VNum n) (VNum (Fin (inject_Z fallback))))).

(** [parseInt(process.env.DB_PORT) || 3306] *)
Definition db_port (x : option jsstring) : completion value := env_int x 3306.

(** [parseInt(process.env.REDIS_PORT) || 6379] *)
Definition redis_port (x : option jsstring) : completion value := env_int x 6379.

(** [parseInt(process.env.CACHE_TTL) || 300] *)
Definition cache_ttl (x : option jsstring) : completion value := env_int x 300.

End Config.

(** ** Statuses of the routes

    The status codes that occur in the body of each route. *)

Definition statuses_of `{Store} (req : request) : list Z :=
  match req with
  | GetBooks => [200; 500]
  | GetBook _ => [200; 404; 500]
  | PostBook _ => [201; 400; 409; 500]
  | PutBook _ _ => [200; 400; 404; 500]
  | DeleteBook _ => [200; 404; 500]
  end.

(** What a route can do from the state [w]: it answers with one of its
    statuses, or it never answers, the cache client being open and one of
    its commands stalling; no exception escapes it. *)
Definition route_outcome `{Store} (req : request) (w : world db) (x : promise response)
  : Prop :=
  match x with
  | Fulfilled r => In (status r) (statuses_of req)
  | Rejected _ => False
  | Pending => stalls w = true /\ connected w = true
  end.

(** What GET /api/books/:id answers from the store alone. *)
Definition read_one_from_store `{Store} (d : db) (id : jsstring) : response :=
  match select_by_id d (VStr id) with
  | Normal [] => res_json 404 (error_body "Book not found")
  | Normal (row0 :: _) => res_json 200 row0
  | Throw _ => res_json 500 (error_body "Failed to fetch book")
  end.

(** What GET /api/books answers from the store alone. *)
Definition read_all_from_store `{Store} (d : db) : response :=
  match select_all d with
  | Normal rows => res_json 200 (VArr rows)
  | Throw _ => res_json 500 (error_body "Failed to fetch books")
  end.

(** The state after a sequence of requests. *)
Fixpoint run `{Store} (reqs : list request) (w : world db) : world db :=
  match reqs with
  | [] => w
  | req :: rest => run rest (snd (handle req w))
  end.

(** ** Transparency of the cache over a sequence of requests *)






(** * Properties *)

(** ** Regular expressions *)

Section RegexFacts.

Import Regex.

Lemma rmatch_rep n r s : rmatch (RRep n r) s = rep r n [s].
Proof. reflexivity. Qed.

Lemma rep_nil r n : rep r n [] = [].
Proof. induction n; simpl; auto. Qed.

Lemma rep_class p n s :
  rep (RClass p) n [s] =
    if (n <=? length s)%nat && forallb p (take n s) then [drop n s] else [].
Proof.
  revert s. induction n as [|n IH]; intros s.
  - simpl. rewrite drop_0. reflexivity.
  - simpl rep. destruct s as [|x t]; simpl flat_map.
    + apply rep_nil.
    + destruct (p x) eqn:Hp; simpl.
      * rewrite IH. rewrite Hp. reflexivity.
      * rewrite Hp. rewrite andb_false_r. apply rep_nil.
Qed.

Lemma forallb_Forall (p : N -> bool) l :
  forallb p l = true <-> Forall (fun c => p c = true) l.
Proof.
  induction l as [|x t IH]; simpl.
  - split; auto.
  - rewrite andb_true_iff, IH. split.
    + intros [? ?]. constructor; auto.
    + intros Hf. inversion Hf; auto.
Qed.

Lemma rmatch_alt a b s : rmatch (RAlt a b) s = rmatch a s ++ rmatch b s.
Proof. reflexivity. Qed.

Lemma rmatch_seq a b s : rmatch (RSeq a b) s = flat_map (rmatch b) (rmatch a s).
Proof. reflexivity. Qed.

(** The ISBN-10 expression, read off character by character. *)
Lemma test_isbn10 s :
  test_anchored isbn10Regex s =
    (9 <=? length s)%nat && forallb digit (take 9 s)
    && match drop 9 s with
       | [c] => digit c || N.eqb c (cu "X")
       | _ => false
       end.
Proof.
  unfold test_anchored, isbn10Regex.
  rewrite rmatch_alt, rmatch_seq, !rmatch_rep, !rep_class.
  destruct (le_lt_dec 9 (length s)) as [Hle|Hlt].
  - assert (Hs : s = take 9 s ++ drop 9 s) by (symmetry; apply take_drop).
    assert (Hlen : length (take 9 s) = 9%nat) by (rewrite length_take; lia).
    revert Hs Hlen. generalize (take 9 s) (drop 9 s). intros pre suf -> Hlen.
    rewrite take_app, drop_app, Hlen, (take_ge pre), (drop_ge pre) by lia.
    rewrite length_app, Hlen, forallb_app.
    replace (9 <=? 9 + length suf)%nat with true by (symmetry; apply Nat.leb_le; lia).
    destruct (forallb digit pre); cbn [andb].
    + destruct suf as [|c [|c' t]]; cbn -[cu digit]; try reflexivity.
      * destruct (N.eqb c (cu "X")), (digit c); reflexivity.
      * destruct (N.eqb c (cu "X")), (digit c); reflexivity.
    + destruct (10 <=? 9 + length suf)%nat; reflexivity.
  - replace (9 <=? length s)%nat with false by (symmetry; apply Nat.leb_gt; lia).
    replace (10 <=? length s)%nat with false by (symmetry; apply Nat.leb_gt; lia).
    reflexivity.
Qed.

Lemma rmatch_char c s :
  rmatch (RChar c) s =
    match s with x :: t => if N.eqb x c then [t] else [] | [] => [] end.
Proof. reflexivity. Qed.

Lemma rmatch_class p s :
  rmatch (RClass p) s =
    match s with x :: t => if p x then [t] else [] | [] => [] end.
Proof. reflexivity. Qed.

Lemma flat_map_single {A B} (f : A -> list B) x : flat_map f [x] = f x.
Proof. simpl. apply app_nil_r. Qed.

Lemma existsb_is_nil_single (l : list N) : existsb is_nil [l] = is_nil l.
Proof. simpl. apply orb_false_r. Qed.

(** The ISBN-13 expression, read off character by character. *)
Lemma test_isbn13 s :
  test_anchored isbn13Regex s =
    match s with
    | c0 :: c1 :: c2 :: t =>
        N.eqb c0 (cu "9") && N.eqb c1 (cu "7")
        && (N.eqb c2 (cu "8") || N.eqb c2 (cu "9"))
        && ((10 <=? length t)%nat && forallb digit (take 10 t) && is_nil (drop 10 t))
    | _ => false
    end.
Proof.
  unfold test_anchored, isbn13Regex.
  rewrite !rmatch_seq, rmatch_char.
  destruct s as [|c0 [|c1 [|c2 t]]]; try reflexivity.
  - destruct (N.eqb c0 (cu "9")); reflexivity.
  - destruct (N.eqb c0 (cu "9")); [|reflexivity].
    rewrite flat_map_single, rmatch_seq, rmatch_char.
    destruct (N.eqb c1 (cu "7")); reflexivity.
  - destruct (N.eqb c0 (cu "9")); [|reflexivity].
    rewrite flat_map_single, rmatch_seq, rmatch_char.
    destruct (N.eqb c1 (cu "7")); [|reflexivity].
    rewrite flat_map_single, rmatch_seq, rmatch_class.
    destruct (N.eqb c2 (cu "8") || N.eqb c2 (cu "9")); [|reflexivity].
    rewrite flat_map_single, rmatch_rep, rep_class.
    destruct ((10 <=? length t)%nat && forallb digit (take 10 t)).
    + apply existsb_is_nil_single.
    + reflexivity.
Qed.

Lemma digit_range c : digit c = true <-> (48 <= c <= 57)%N.
Proof. unfold digit. rewrite andb_true_iff, !N.leb_le. tauto. Qed.

Lemma isbn10_format_iff s :
  test_anchored isbn10Regex s = true <-> isbn10_format s.
Proof.
  rewrite test_isbn10. unfold isbn10_format.
  rewrite !andb_true_iff, Nat.leb_le, forallb_Forall.
  split.
  - intros [[Hle Hd] Hlast].
    destruct (drop 9 s) as [|c [|c' t]] eqn:Hdrop; try discriminate.
    assert (Hlen : length s = 10%nat).
    { apply (f_equal length) in Hdrop. rewrite length_drop in Hdrop. simpl in Hdrop. lia. }
    split; [exact Hlen|]. split; [exact Hd|].
    exists c. split.
    + rewrite <- (take_drop 9 s), Hdrop.
      rewrite lookup_app_r; rewrite length_take; [|lia].
      replace (9 - 9 `min` length s)%nat with 0%nat by lia. reflexivity.
    + apply orb_true_iff in Hlast as [H|H]; [left; exact H|right; apply N.eqb_eq; exact H].
  - intros (Hlen & Hd & c & Hc & Hok).
    split; [split; [lia|exact Hd]|].
    assert (Hdrop : drop 9 s = [c]).
    { apply (drop_S s c 9) in Hc. rewrite Hc.
      rewrite drop_ge by lia. reflexivity. }
    rewrite Hdrop. apply orb_true_iff.
    destruct Hok as [H|H]; [left; exact H|right; apply N.eqb_eq; exact H].
Qed.

Lemma isbn13_format_iff s :
  test_anchored isbn13Regex s = true <-> isbn13_format s.
Proof.
  rewrite test_isbn13. unfold isbn13_format.
  destruct s as [|c0 [|c1 [|c2 t]]];
    try (split; [discriminate|intros (Hlen & _); simpl in Hlen; lia]).
  split.
  - rewrite !andb_true_iff, orb_true_iff, !N.eqb_eq, Nat.leb_le, forallb_Forall.
    intros [[[H0 H1] H2] [[Hle Hd] Hnil]]. subst c0 c1.
    assert (Hlen : length t = 10%nat).
    { destruct (drop 10 t) eqn:Hdrop; [|discriminate].
      apply (f_equal length) in Hdrop. rewrite length_drop in Hdrop. simpl in Hdrop. lia. }
    rewrite take_ge in Hd by lia.
    split; [simpl; lia|]. split.
    + constructor; [reflexivity|]. constructor; [reflexivity|].
      constructor; [destruct H2 as [-> | ->]; reflexivity|exact Hd].
    + destruct H2 as [-> | ->]; [left|right]; reflexivity.
  - intros (Hlen & Hd & Hpre). simpl in Hlen.
    inversion Hd as [|? ? _ Hd1]; subst. inversion Hd1 as [|? ? _ Hd2]; subst.
    inversion Hd2 as [|? ? _ Hd3]; subst.
    rewrite take_ge by lia. rewrite drop_ge by lia.
    assert (c0 = cu "9" /\ c1 = cu "7" /\ (c2 = cu "8" \/ c2 = cu "9")) as (-> & -> & H2).
    { destruct Hpre as [Hp|Hp]; simpl in Hp; inversion Hp; auto. }
    apply forallb_Forall in Hd3. rewrite Hd3.
    replace (10 <=? length t)%nat with true by (symmetry; apply Nat.leb_le; lia).
    rewrite !N.eqb_refl.
    destruct H2 as [-> | ->]; reflexivity.
Qed.

End RegexFacts.

(** ** The validators *)

Section Stripping.

Lemma separator_class c :
  (N.eqb c (cu "-") || space c) = existsb (N.eqb c) (45%N :: white_space).
Proof.
  change (cu "-") with 45%N. unfold space, white_space. cbn [existsb].
  rewrite orb_false_r. apply eq_true_iff_eq.
  repeat (rewrite orb_true_iff || rewrite andb_true_iff).
  rewrite !N.leb_le, !N.eqb_eq. lia.
Qed.

(** The replacement [/[-\s]/g] removes the hyphens and every white-space
    character, not only the space. *)
Lemma cleanISBN_strips s : cleanISBN s = strip_hyphens_and_white_space s.
Proof.
  unfold cleanISBN, replace_class_all, strip_hyphens_and_white_space, without.
  induction s as [|c t IH]; [reflexivity|].
  cbn [List.filter]. rewrite IH, separator_class. reflexivity.
Qed.

End Stripping.

(** C5, amended.  On a string, [validateISBN] accepts exactly when the
    string, with its hyphens and every white-space character removed (the
    class [\s]: the space, but also the tab, the line terminators, the
    no-break space and the other space separators), is ten characters,
    digits with a last character that may be [X] (ISBN-10), or thirteen
    digits beginning with 978 or 979 (ISBN-13).  "0451524935",
    "043942089X" and "9780451524935" are accepted, "1234" and the
    twelve-digit "978045152493" are rejected; "0-451-52493-5" and
    "978 0 451 52493 5" are accepted, and a hyphenated text that is too
    short is not. *)
Theorem validateISBN_accepts_isbn10_or_isbn13 :
  (forall s : jsstring,
      validateISBN (VStr s) = Normal true <->
      isbn10_format (strip_hyphens_and_white_space s)
      \/ isbn13_format (strip_hyphens_and_white_space s))
  /\ (forall s : jsstring,
        validateISBN (VStr s) = Normal true \/ validateISBN (VStr s) = Normal false)
  /\ validateISBN (VStr (js "0451524935")) = Normal true
  /\ validateISBN (VStr (js "043942089X")) = Normal true
  /\ validateISBN (VStr (js "9780451524935")) = Normal true
  /\ validateISBN (VStr (js "1234")) = Normal false
  /\ validateISBN (VStr (js "978045152493")) = Normal false
  /\ validateISBN (VStr (js "0-451-52493-5")) = Normal true
  /\ validateISBN (VStr (js "978 0 451 52493 5")) = Normal true
  /\ validateISBN (VStr (js " 0-439-42089-X ")) = Normal true
  /\ validateISBN (VStr (js "0-451-52493")) = Normal false
  /\ validateISBN (VStr (js "978-0-451-52493")) = Normal false.
Proof.
  split; [|split; [|repeat split; vm_compute; reflexivity]].
  - intros s. unfold validateISBN. rewrite cleanISBN_strips.
    rewrite <- isbn10_format_iff, <- isbn13_format_iff, <- orb_true_iff.
    split; [intros Heq; injection Heq; auto|intros ->; reflexivity].
  - intros s. unfold validateISBN.
    destruct (_ || _); [left|right]; reflexivity.
Qed.

(** C5, as stated, fails: the claim strips hyphens and spaces, the code
    strips every white-space character.  The text "0451524935" followed by
    a tab keeps its eleven characters when hyphens and spaces are removed,
    and is neither format; the validator accepts it. *)
Lemma validateISBN_also_strips_a_tab :
  let s := js "0451524935" ++ [9%N] in
  validateISBN (VStr s) = Normal true
  /\ strip_hyphens_and_spaces s = s
  /\ ~ (isbn10_format (strip_hyphens_and_spaces s)
        \/ isbn13_format (strip_hyphens_and_spaces s)).
Proof.
  split; [vm_compute; reflexivity|]. split; [vm_compute; reflexivity|].
  intros [(Hlen & _)|(Hlen & _)]; vm_compute in Hlen; discriminate.
Qed.

(** C6.  The stock check looks at [parseInt(stock)], the statement
    receives [stock] itself.  The JSON number 100000.9 passes the check (it
    is read as 100000) although it is not an integer and is above 100000;
    the create route answers 201 and the column takes 100001.  In the same
    way 1e21 and 0.0000001 pass (their texts "1e+21" and "1e-7" are read
    as 1), and so does the text "12abc", for the stock and for the price.  The boundaries of the range
    are as documented: price 10000 is valid, 10000.01 and -1 are not; stock
    100000 is valid, 100001 is not (given as JSON numbers or as strings,
    an exponent in a price and a hexadecimal prefix in a stock included).
    An array is read through its text, an object is not a number, and an
    object with an own [toString] member makes the validator throw. *)
Theorem validateStock_accepts_a_stock_above_100000 :
  let stock := VNum (Num.round64 (1000009 # 10)) in
  let body := Sample.book_body "Ulysses" "James Joyce" (VStr (js "0451524935"))
                (VNum (Fin 12)) stock in
  validateStock stock = Normal true
  /\ (let '(rs, w) := Sample.serve [PostBook body] Sample.fresh in
      Sample.statuses rs = [201]
      /\ map RefStore.stock (RefStore.books (pool w)) = [Some 100001])
  /\ validateStock (VNum (Num.round64 (inject_Z (10 ^ 21)))) = Normal true
  /\ validateStock (VStr (js "12abc")) = Normal true
  /\ validatePrice (VStr (js "12abc")) = Normal true
  /\ validatePrice (VNum (Fin 10000)) = Normal true
  /\ validatePrice (VNum (Num.round64 (1000001 # 100))) = Normal false
  /\ validatePrice (VNum (Fin (-1))) = Normal false
  /\ validateStock (VNum (Fin 100000)) = Normal true
  /\ validateStock (VNum (Fin 100001)) = Normal false
  /\ validatePrice (VStr (js "10000")) = Normal true
  /\ validatePrice (VStr (js "10000.01")) = Normal false
  /\ validatePrice (VStr (js "-1")) = Normal false
  /\ validatePrice (VStr (js "1e4")) = Normal true
  /\ validatePrice (VStr (js "1e5")) = Normal false
  /\ validatePrice (VStr (js "15.99e-1")) = Normal true
  /\ validateStock (VStr (js "100000")) = Normal true
  /\ validateStock (VStr (js "100001")) = Normal false
  /\ validateStock (VStr (js "0x186A0")) = Normal true
  /\ validateStock (VStr (js "0x186a1")) = Normal false
  /\ validateStock (VStr (js "1e5")) = Normal true
  /\ validatePrice (VStr (js "  42")) = Normal true
  /\ validateStock (VStr (js "+5")) = Normal true
  /\ validateStock (VStr (js "-5")) = Normal false
  /\ validateStock (VNum (Num.round64 (1 # 2))) = Normal true
  /\ validateStock (VNum (Num.round64 (1 # 10000000))) = Normal true
  /\ validatePrice (VArr [VNum (Fin 5)]) = Normal true
  /\ validatePrice (VArr [VNum (Fin 9999); VNum (Fin 9)]) = Normal true
  /\ validatePrice (VArr [VNull; VNum (Fin 5)]) = Normal false
  /\ validatePrice (VObj []) = Normal false
  /\ validatePrice (VObj [(js "toString", VNum (Fin 1))]) = Throw TypeError
  /\ validateStock (VArr [VNum (Fin 5); VObj [(js "toString", VNull)]])
     = Throw TypeError.
Proof.
  split; [vm_compute; reflexivity|].
  split; [vm_compute; split; reflexivity|].
  repeat split; vm_compute; reflexivity.
Qed.

(** C4. [validateISBN] does raise on malformed input: on every value that
    is not a string the call [isbn.replace] throws a TypeError; a create
    request whose ISBN is the JSON number 451524935 is answered 500
    "Failed to create book" instead of the 400 of a rejected input. *)
Theorem validateISBN_throws_on_a_number :
  validateISBN (VNum (Fin 451524935)) = Throw TypeError
  /\ (forall (S : Store) (w : world db),
        post_book Sample.numeric_isbn w
        = (Fulfilled (res_json 500 (error_body "Failed to create book")), w))
  /\ (forall (S : Store) (w : world db) id,
        put_book id Sample.numeric_isbn w
        = (Fulfilled (res_json 500 (error_body "Failed to update book")), w)).
Proof.
  repeat split; intros; reflexivity.
Qed.

Lemma validateISBN_throws_unless_string v :
  (forall s, v <> VStr s) -> validateISBN v = Throw TypeError.
Proof. intros Hv. destruct v; try reflexivity. destruct (Hv s). reflexivity. Qed.

(** ** Start-up *)

Section StartupFacts.

Import Startup.

Ltac run_startup env cache :=
  unfold startServer, attempts, listening, exited; cbn [connect_loop];
  destruct (env 0%nat), (env 1%nat), (env 2%nat), (env 3%nat), (env 4%nat), cache;
  cbn.

(** At most five connection attempts are made. *)
Lemma startServer_attempts_at_most_5 env cache :
  (attempts (startServer env cache) <= 5)%nat.
Proof. run_startup env cache; lia. Qed.

(** The process never both exits and starts the listener. *)
Lemma startServer_never_exits_and_listens env cache :
  listening (startServer env cache) && exited (startServer env cache) = false.
Proof. run_startup env cache; reflexivity. Qed.

(** The listener is started exactly when the process has not exited and
    [redisClient.connect()] has settled. *)
Lemma startServer_listens_iff env cache :
  listening (startServer env cache) = true <->
  exited (startServer env cache) = false /\ cache <> CacheUnreachable.
Proof.
  run_startup env cache;
    (split;
     [intros Hl; first [discriminate Hl|split; [reflexivity|discriminate]]
     |intros [He Hc];
      first [discriminate He|reflexivity|destruct Hc; reflexivity]]).
Qed.

(** The process exits only when [mysql.createPool] itself threw five
    times: [pool] is then still undefined. *)
Lemma startServer_exits_iff env cache :
  exited (startServer env cache) = true <->
  forall n, (n < 5)%nat -> env n = CreatePoolThrows.
Proof.
  split.
  - intros Hex n Hn.
    assert (Hcases : (n = 0 \/ n = 1 \/ n = 2 \/ n = 3 \/ n = 4)%nat) by lia.
    revert Hex. unfold startServer, exited. cbn [connect_loop].
    destruct (env 0%nat) eqn:E0, (env 1%nat) eqn:E1, (env 2%nat) eqn:E2,
      (env 3%nat) eqn:E3, (env 4%nat) eqn:E4, cache; cbn; try discriminate.
    all: intros _; destruct Hcases as [-> | [-> | [-> | [-> | ->]]]]; assumption.
  - intros Hall. unfold startServer, exited. cbn [connect_loop].
    rewrite !Hall by lia. reflexivity.
Qed.

(** C2.  When the database is unreachable at each of the five attempts
    ([pool.getConnection()] rejects) and the cache server is reachable, the
    process makes five attempts, sleeps 5000 ms after each, and then goes
    on to [initRedis] and [app.listen]: it does not exit, although the
    claim is that start-up aborts.  [pool] was assigned by
    [mysql.createPool] before the first connection was tried, so the test
    [!pool] is false.  It is the same when [redisClient.connect()]
    rejects. *)
Theorem startServer_listens_with_database_down :
  let st := startServer (fun _ => ConnectionFails) CacheConnects in
  let st' := startServer (fun _ => ConnectionFails) CacheConnectRejects in
  trace st = [Connect; Sleep 5000; Connect; Sleep 5000; Connect; Sleep 5000;
              Connect; Sleep 5000; Connect; Sleep 5000; InitRedis; Listen]
  /\ attempts st = 5%nat
  /\ listening st = true
  /\ exited st = false
  /\ trace st' = trace st.
Proof. repeat split. Qed.

End StartupFacts.

(** ** The cache helpers never throw and never touch the store *)

Section CacheHelpers.

Context `{Store}.

Lemma redis_cmd_pool {A} (f : redis_client -> promise A * redis_client) w r w' :
  redis_cmd f w = (r, w') -> pool w' = pool w.
Proof.
  unfold redis_cmd. destruct (redisClient w) as [c|].
  - destruct (f c) as [r0 c']. intros [= <- <-]. reflexivity.
  - intros [= <- <-]. reflexivity.
Qed.

Lemma getFromCache_disconnected key w :
  connected w = false -> getFromCache key w = (Fulfilled VNull, w).
Proof.
  intros Hc. unfold getFromCache, mbind, M_bind, bind, redis_isOpen.
  unfold connected in Hc. rewrite Hc. reflexivity.
Qed.

Lemma setToCache_disconnected key data ttl w :
  connected w = false -> setToCache key data ttl w = (Fulfilled tt, w).
Proof.
  intros Hc. unfold setToCache, mbind, M_bind, bind, redis_isOpen.
  unfold connected in Hc. rewrite Hc. reflexivity.
Qed.

Lemma invalidateCache_disconnected pattern w :
  connected w = false -> invalidateCache pattern w = (Fulfilled tt, w).
Proof.
  intros Hc. unfold invalidateCache, mbind, M_bind, bind, redis_isOpen.
  unfold connected in Hc. rewrite Hc. reflexivity.
Qed.

Ltac open_helper :=
  unfold helper_outcome, getFromCache, setToCache, invalidateCache,
    mbind, M_bind, bind, redis_isOpen, try_catch, ret, lift, redis_cmd,
    connected, stalls, Redis.get, Redis.setEx, Redis.keys, Redis.del,
    Redis.next_fault, Redis.with_keyspace;
  cbv beta.

Ltac close_helper :=
  repeat split; try reflexivity; try tauto;
  try (let Hs := fresh "Hs" in
       intros Hs; cbn in Hs; rewrite ?orb_true_r in Hs;
       first [discriminate Hs|exact Hs]).

Lemma getFromCache_outcome key w : helper_outcome w (getFromCache key w).
Proof.
  destruct w as [d [[o m fs]|]]; open_helper; cbn; [|close_helper].
  destruct o; cbn; [|close_helper].
  destruct fs as [|[] rest]; cbn; try close_helper;
    destruct (m !! key) as [[v|]|]; cbn; close_helper.
Qed.

Lemma setToCache_outcome key data ttl w : helper_outcome w (setToCache key data ttl w).
Proof.
  destruct w as [d [[o m fs]|]]; open_helper; cbn; [|close_helper].
  destruct o; cbn; [|close_helper].
  destruct (Json.stringify data) as [t|]; cbn; [|close_helper].
  destruct fs as [|[] rest]; cbn; close_helper.
Qed.

Lemma invalidateCache_outcome pattern w : helper_outcome w (invalidateCache pattern w).
Proof.
  destruct w as [d [[o m fs]|]]; open_helper; cbn -[Nat.ltb]; [|close_helper].
  destruct o; cbn -[Nat.ltb]; [|close_helper].
  destruct fs as [|[] [|[] [|[] rest]]]; cbn -[Nat.ltb];
    try match goal with
        | |- context [(0 <? length ?l)%nat] => destruct (0 <? length l)%nat
        end; cbn; close_helper.
Qed.

(** The shape in which the routes use these facts. *)
Lemma helper_cases {A} (w : world db) (out : promise A * world db) :
  helper_outcome w out ->
  exists w', pool w' = pool w
             /\ ((exists a, out = (Fulfilled a, w')) \/ out = (Pending, w')).
Proof.
  destruct out as [[a|e|] w']; intros (Hp & _ & _ & Hx); cbn in *.
  - exists w'. eauto.
  - destruct Hx.
  - exists w'. auto.
Qed.

Lemma getFromCache_cases key w :
  exists w', pool w' = pool w
             /\ ((exists v, getFromCache key w = (Fulfilled v, w'))
                 \/ getFromCache key w = (Pending, w')).
Proof. apply helper_cases, getFromCache_outcome. Qed.

Lemma setToCache_cases key data ttl w :
  exists w', pool w' = pool w
             /\ (setToCache key data ttl w = (Fulfilled tt, w')
                 \/ setToCache key data ttl w = (Pending, w')).
Proof.
  destruct (helper_cases w _ (setToCache_outcome key data ttl w))
    as (w' & Hp & [[[] Hs]|Hs]); eauto.
Qed.

Lemma invalidateCache_cases pattern w :
  exists w', pool w' = pool w
             /\ (invalidateCache pattern w = (Fulfilled tt, w')
                 \/ invalidateCache pattern w = (Pending, w')).
Proof.
  destruct (helper_cases w _ (invalidateCache_outcome pattern w))
    as (w' & Hp & [[[] Hs]|Hs]); eauto.
Qed.

End CacheHelpers.

(** ** Runs on the reference store *)

(** C3.  An update that omits price and stock passes the checks (they are
    skipped for [undefined]), is answered 200, and stores NULL in both
    columns: a successful write path that leaves the record without a
    price and without a stock.  (The create route puts 0 in their place.) *)
Theorem update_without_price_stores_null :
  let '(rs, w) := Sample.serve [PostBook Sample.orwell;
                                PutBook (js "1") Sample.joyce_bare] Sample.fresh in
  Sample.statuses rs = [201; 200]
  /\ map RefStore.id (RefStore.books (pool w)) = [1]
  /\ map RefStore.price (RefStore.books (pool w)) = [None]
  /\ map RefStore.stock (RefStore.books (pool w)) = [None].
Proof. vm_compute. repeat split. Qed.

(** The checks look at [parseInt(stock)] but the statement receives [stock]
    itself: a stock of 100000.9 passes and the column takes 100001. *)
Lemma create_with_fractional_stock_stores_100001 :
  let body := Sample.book_body "Ulysses" "James Joyce" (VStr (js "0451524935"))
                (VNum (Fin 12)) (VNum (Num.round64 (1000009 # 10))) in
  let '(rs, w) := Sample.serve [PostBook body] Sample.fresh in
  Sample.statuses rs = [201]
  /\ map RefStore.stock (RefStore.books (pool w)) = [Some 100001].
Proof. vm_compute. repeat split. Qed.

(** C9.  A second book created with an ISBN already present is answered
    409 "Book with this ISBN already exists"; an update that gives a book
    the ISBN of another one meets the same ER_DUP_ENTRY and is answered
    with the generic 500 "Failed to update book": the catch block of the
    update route does not look at [error.code]. *)
Theorem duplicate_isbn_on_update_is_a_generic_500 :
  let '(rs, w) := Sample.serve [PostBook Sample.orwell;
                                PostBook Sample.joyce;
                                PostBook Sample.orwell_again;
                                PutBook (js "2") Sample.orwell_again] Sample.fresh in
  rs = [Fulfilled (res_json 201
          (VObj [(js "id", VNum (Fin 1)); (js "title", VStr (js "1984"));
                 (js "author", VStr (js "George Orwell"));
                 (js "isbn", VStr (js "9780451524935"));
                 (js "price", VNum (Num.round64 (1599 # 100)));
                 (js "stock", VNum (Fin 100));
                 (js "message", VStr (js "Book created successfully"))]));
        Fulfilled (res_json 201
          (VObj [(js "id", VNum (Fin 2)); (js "title", VStr (js "Ulysses"));
                 (js "author", VStr (js "James Joyce"));
                 (js "isbn", VStr (js "0451524935"));
                 (js "price", VNum (Fin 12));
                 (js "stock", VNum (Fin 7));
                 (js "message", VStr (js "Book created successfully"))]));
        Fulfilled (res_json 409 (error_body "Book with this ISBN already exists"));
        Fulfilled (res_json 500 (error_body "Failed to update book"))]
  /\ RefStore.update (pool w)
       (VStr (js "Animal Farm")) (VStr (js "George Orwell")) (VStr (js "9780451524935"))
       (VNum (Fin (19 # 2))) (VNum (Fin 3)) (VStr (js "2"))
     = Throw (CodedError (js "ER_DUP_ENTRY")).
Proof. vm_compute. repeat split. Qed.

(** ** Failed writes *)

Section FailedWrites.

Context `{Store}.

Ltac unfold_route :=
  unfold handle, post_book, put_book, delete_book_route, try_catch,
    mbind, M_bind, bind, lift, ret, query_write in *.

(** C7.  When the statement of a create, update or delete fails (no row
    matched, a duplicate ISBN, or any driver error), the route answers
    with the response section 6 assigns to that failure and sends no
    command to the cache: the client (key space and fault schedule) is
    exactly as before, so nothing was invalidated and nothing populated. *)
Ltac finish := eexists; split; [reflexivity|split; reflexivity].

Theorem failed_write_has_no_cache_interaction (req : request) (w : world db)
    (out : completion (Z * db)) (f : store_failure) :
  checks req = Normal None ->
  statement req (pool w) = Some out ->
  classify req out = Some f ->
  exists w',
    handle req w = (Fulfilled (http_error req f), w')
    /\ redisClient w' = redisClient w
    /\ pool w' = store_after (pool w) out.
Proof.
  intros Hchk Hstmt Hcls.
  destruct req as [|id|b|id b|id]; cbn [statement] in Hstmt; try discriminate.
  - (* create *)
    cbn [checks] in Hchk. unfold_route.
    destruct (destructure b) as [[[[[t a] i] p] s]|e]; [|discriminate].
    injection Hstmt as <-. cbn [settled]. rewrite Hchk. cbn [settled].
    destruct (insert_book _ _ _ _ _ _) as [[n d]|e]; unfold classify in Hcls; [discriminate|].
    destruct e as [| |code]. all: try (injection Hcls as <-; finish).
    destruct (jsstring_eqb code (js "ER_DUP_ENTRY")); injection Hcls as <-; finish.
  - (* update *)
    cbn [checks] in Hchk. unfold_route.
    destruct (destructure b) as [[[[[t a] i] p] s]|e]; [|discriminate].
    injection Hstmt as <-. cbn [settled]. rewrite Hchk. cbn [settled].
    destruct (update_book _ _ _ _ _ _ _) as [[n d]|e]; unfold classify in Hcls.
    + destruct (n =? 0); [|discriminate]. injection Hcls as <-. finish.
    + destruct e as [| |code]; try (injection Hcls as <-; finish).
      destruct (jsstring_eqb code (js "ER_DUP_ENTRY")); injection Hcls as <-; finish.
  - (* delete *)
    unfold_route. injection Hstmt as <-.
    destruct (delete_book _ _) as [[n d]|e]; unfold classify in Hcls.
    + destruct (n =? 0); [|discriminate]. injection Hcls as <-. finish.
    + destruct e as [| |code]; try (injection Hcls as <-; finish).
      destruct (jsstring_eqb code (js "ER_DUP_ENTRY")); injection Hcls as <-; finish.
Qed.

End FailedWrites.

(** ** JSON cloning *)

Lemma json_clone_obj ps : Json.json_clone (VObj ps) = VObj (clone_props ps).
Proof.
  reflexivity.
Qed.



Lemma clone_props_cons k v rest :
  v <> VUndefined ->
  clone_props ((k, v) :: rest) = (k, Json.json_clone v) :: clone_props rest.
Proof. destruct v; intros Hv; try reflexivity. destruct Hv; reflexivity. Qed.

(** A key bound to nothing but [undefined] is absent from the clone. *)
Lemma lookup_clone_props_absent k ps :
  (forall v, In (k, v) ps -> v = VUndefined) ->
  Obj.lookup_prop k (clone_props ps) = VUndefined.
Proof.
  induction ps as [|[k' v] rest IH]; intros Hall; [reflexivity|].
  assert (Hrest : forall v0, In (k, v0) rest -> v0 = VUndefined)
    by (intros v0 Hin; apply Hall; right; exact Hin).
  assert (Hdec : v = VUndefined \/ v <> VUndefined)
    by (destruct v; auto; right; discriminate).
  destruct Hdec as [->|Hv]; [simpl; auto|].
  rewrite clone_props_cons by exact Hv. simpl.
  unfold jsstring_eqb. case_bool_decide as Hk; [|auto].
  subst k'. destruct Hv. apply Hall. left. reflexivity.
Qed.

(** ** The create route *)

Section Create.

Context `{Store}.

Lemma create_checks_rejects_with_400 t a i p s r :
  create_checks t a i p s = Normal (Some r) -> status r = 400.
Proof.
  unfold create_checks.
  destruct (negb (JS.truthy t) || negb (JS.truthy a) || negb (JS.truthy i));
    [intros [= <-]; reflexivity|].
  destruct (validateISBN i) as [ok|e]; cbn [bind_c]; [|discriminate].
  destruct (negb ok); [intros [= <-]; reflexivity|].
  destruct (and_not _ (validatePrice p)) as [[|]|e]; cbn [bind_c];
    [intros [= <-]; reflexivity| |discriminate].
  destruct (and_not _ (validateStock s)) as [[|]|e]; cbn [bind_c];
    [intros [= <-]; reflexivity|discriminate|discriminate].
Qed.

Lemma update_checks_rejects_with_400 i p s r :
  update_checks i p s = Normal (Some r) -> status r = 400.
Proof.
  unfold update_checks.
  destruct (and_not _ (validateISBN i)) as [[|]|e]; cbn [bind_c];
    [intros [= <-]; reflexivity| |discriminate].
  destruct (and_not _ (validatePrice p)) as [[|]|e]; cbn [bind_c];
    [intros [= <-]; reflexivity| |discriminate].
  destruct (and_not _ (validateStock s)) as [[|]|e]; cbn [bind_c];
    [intros [= <-]; reflexivity|discriminate|discriminate].
Qed.

(** What a 201 tells: the checks passed, the INSERT returned, and the
    body is the echo of the request. *)
Lemma post_book_201 b w r w' :
  post_book b w = (Fulfilled r, w') -> status r = 201 ->
  exists t a i p s id,
    destructure b = Normal (t, a, i, p, s)
    /\ create_checks t a i p s = Normal None
    /\ insert_book (pool w) t a i
         (JS.or_else p (VNum (Fin 0))) (JS.or_else s (VNum (Fin 0)))
       = Normal (id, pool w')
    /\ r = res_json 201
             (VObj [(js "id", VNum (Num.of_Z id)); (js "title", t);
                    (js "author", a); (js "isbn", i); (js "price", p);
                    (js "stock", s);
                    (js "message", VStr (js "Book created successfully"))]).
Proof.
  unfold post_book, try_catch, mbind, M_bind, bind, lift, ret, query_write.
  destruct (destructure b) as [[[[[t a] i] p] s]|e] eqn:Hd; cbn [settled].
  2:{ destruct e as [| |code]; try (intros [= <- <-]; discriminate).
      destruct (jsstring_eqb code _); intros [= <- <-]; discriminate. }
  destruct (create_checks t a i p s) as [[r0|]|e] eqn:Hc; cbn [settled].
  - intros [= <- <-] Hst. apply create_checks_rejects_with_400 in Hc. congruence.
  - destruct (insert_book _ _ _ _ _ _) as [[id d]|e] eqn:Hins.
    + destruct (invalidateCache_cases default_pattern
                  {| pool := d; redisClient := redisClient w |})
        as (w1 & Hpool & [Hinv|Hinv]); rewrite Hinv; [|discriminate].
      intros [= <- <-] _.
      exists t, a, i, p, s, id. simpl in Hpool. rewrite Hpool. auto.
    + destruct e as [| |code]; try (intros [= <- <-]; discriminate).
      destruct (jsstring_eqb code _); intros [= <- <-]; discriminate.
  - destruct e as [| |code]; try (intros [= <- <-]; discriminate).
    destruct (jsstring_eqb code _); intros [= <- <-]; discriminate.
Qed.

Lemma destructure_get b t a i p s :
  destructure b = Normal (t, a, i, p, s) ->
  t = Obj.get (js "title") b /\ a = Obj.get (js "author") b
  /\ i = Obj.get (js "isbn") b /\ p = Obj.get (js "price") b
  /\ s = Obj.get (js "stock") b.
Proof. destruct b; simpl; try discriminate; intros [= <- <- <- <- <-]; auto. Qed.

(** C10.  Whenever a create request is answered 201: the INSERT was sent
    with [price || 0] and [stock || 0], so an omitted price (or stock) is
    stored as 0; yet the body of the response has no [price] (or [stock])
    member, since the route echoes the submitted, absent, value.  The
    response and the stored record disagree on each defaulted field. *)
Theorem created_response_omits_defaulted_fields (b : value) (w w' : world db) (r : response) :
  post_book b w = (Fulfilled r, w') ->
  status r = 201 ->
  exists price_param stock_param id,
    insert_book (pool w) (Obj.get (js "title") b) (Obj.get (js "author") b)
      (Obj.get (js "isbn") b) price_param stock_param
    = Normal (id, pool w')
    /\ (Obj.get (js "price") b = VUndefined ->
        price_param = VNum (Fin 0) /\ Obj.get (js "price") (body r) = VUndefined)
    /\ (Obj.get (js "stock") b = VUndefined ->
        stock_param = VNum (Fin 0) /\ Obj.get (js "stock") (body r) = VUndefined).
Proof.
  intros Hrun Hst.
  destruct (post_book_201 _ _ _ _ Hrun Hst) as (t & a & i & p & s & id & Hd & _ & Hins & ->).
  apply destructure_get in Hd as (-> & -> & -> & -> & ->).
  eexists _, _, id. split; [exact Hins|].
  unfold res_json, body. rewrite json_clone_obj.
  split; intros Hu; rewrite Hu; (split; [reflexivity|]);
    apply lookup_clone_props_absent; intros v Hin; simpl in Hin;
    repeat (destruct Hin as [Hin|Hin]; [injection Hin; intros; subst; try reflexivity; discriminate|]);
    destruct Hin.
Qed.

End Create.

Lemma created_response_omits_defaulted_fields_witness :
  let r := res_json 201
             (VObj [(js "id", VNum (Fin 1)); (js "title", VStr (js "Ulysses"));
                    (js "author", VStr (js "James Joyce"));
                    (js "isbn", VStr (js "0451524935"));
                    (js "price", VUndefined); (js "stock", VUndefined);
                    (js "message", VStr (js "Book created successfully"))]) in
  let w' := {| pool := RefStore.with_books Sample.empty_db [Sample.ulysses_at_0] 2;
               redisClient := Some Sample.open_client |} in
  post_book Sample.joyce_bare Sample.fresh = (Fulfilled r, w')
  /\ status r = 201
  /\ body r = VObj [(js "id", VNum (Fin 1)); (js "title", VStr (js "Ulysses"));
                    (js "author", VStr (js "James Joyce"));
                    (js "isbn", VStr (js "0451524935"));
                    (js "message", VStr (js "Book created successfully"))]
  /\ exists price_param stock_param id,
       insert_book (pool Sample.fresh) (Obj.get (js "title") Sample.joyce_bare)
         (Obj.get (js "author") Sample.joyce_bare)
         (Obj.get (js "isbn") Sample.joyce_bare) price_param stock_param
       = Normal (id, pool w')
       /\ (Obj.get (js "price") Sample.joyce_bare = VUndefined ->
           price_param = VNum (Fin 0) /\ Obj.get (js "price") (body r) = VUndefined)
       /\ (Obj.get (js "stock") Sample.joyce_bare = VUndefined ->
           stock_param = VNum (Fin 0) /\ Obj.get (js "stock") (body r) = VUndefined).
Proof.
  intros r w'.
  assert (Hrun : post_book Sample.joyce_bare Sample.fresh = (Fulfilled r, w'))
    by (vm_compute; reflexivity).
  split; [exact Hrun|].
  split; [reflexivity|].
  split; [reflexivity|].
  exact (created_response_omits_defaulted_fields (H := ref_store)
           Sample.joyce_bare Sample.fresh w' r Hrun eq_refl).
Defined.

Lemma failed_write_has_no_cache_interaction_witness :
  let req := PostBook Sample.orwell_again in
  let out : completion (Z * RefStore.state) := Throw (CodedError (js "ER_DUP_ENTRY")) in
  checks req = Normal None
  /\ statement req (pool Sample.orwell_cached) = Some out
  /\ classify req out = Some Conflict
  /\ exists w',
       handle req Sample.orwell_cached = (Fulfilled (http_error req Conflict), w')
       /\ redisClient w' = redisClient Sample.orwell_cached
       /\ pool w' = store_after (pool Sample.orwell_cached) out.
Proof.
  intros req out.
  assert (Hchk : checks req = Normal None) by (vm_compute; reflexivity).
  assert (Hstmt : statement req (pool Sample.orwell_cached) = Some out)
    by (vm_compute; reflexivity).
  assert (Hcls : classify (H := ref_store) req out = Some Conflict) by reflexivity.
  split; [exact Hchk|]. split; [exact Hstmt|]. split; [exact Hcls|].
  exact (failed_write_has_no_cache_interaction (H := ref_store)
           req Sample.orwell_cached out Conflict Hchk Hstmt Hcls).
Defined.

(** ** Induction on values *)

Lemma value_nested_ind (P : value -> Prop) :
  P VUndefined -> P VNull -> (forall b, P (VBool b)) -> (forall n, P (VNum n)) ->
  (forall s, P (VStr s)) ->
  (forall items, Forall P items -> P (VArr items)) ->
  (forall props, Forall (fun kv => P (snd kv)) props -> P (VObj props)) ->
  forall v, P v.
Proof.
  intros Hu Hn Hb Hnum Hs Ha Ho.
  fix IH 1. intros [| |b|n|s|items|props];
    [exact Hu|exact Hn|apply Hb|apply Hnum|apply Hs| |].
  - apply Ha. induction items as [|x t IHt]; constructor; [apply IH|exact IHt].
  - apply Ho. induction props as [|[k x] t IHt]; constructor; [apply IH|exact IHt].
Qed.

Lemma clone_item_not_undefined x : clone_item x <> VUndefined.
Proof.
  destruct x as [| | |n| | |]; simpl; try discriminate.
  destruct n; discriminate.
Qed.


Lemma undefined_or_not (x : value) : x = VUndefined \/ x <> VUndefined.
Proof. destruct x; auto; right; discriminate. Qed.


(** ** Conversion to a string *)

Lemma to_string_arr items : JS.to_string (VArr items) = join_items items.
Proof. reflexivity. Qed.

(** [ToString] throws nothing but a TypeError. *)
Lemma to_string_throws_TypeError v e : JS.to_string v = Throw e -> e = TypeError.
Proof.
  revert e.
  induction v as [| |b|n|s|items IH|props IH] using value_nested_ind; intros e;
    try discriminate.
  - destruct b; discriminate.
  - rewrite to_string_arr. revert e.
    induction IH as [|x t Hx _ IHt]; intros e; cbn [join_items]; [discriminate|].
    destruct (match x with VUndefined | VNull => Normal [] | _ => JS.to_string x end)
      as [p|e0] eqn:Hx0.
    + destruct t as [|y t']; [discriminate|].
      destruct (join_items (y :: t')) as [q|e1]; [discriminate|].
      intros [= <-]. apply IHt. reflexivity.
    + intros [= <-]. destruct x; try discriminate Hx0; apply Hx; exact Hx0.
  - cbn [JS.to_string]. destruct (JS.has_own _ _); [intros [= <-]; reflexivity|discriminate].
Qed.

Lemma validatePrice_throws_TypeError v e : validatePrice v = Throw e -> e = TypeError.
Proof.
  unfold validatePrice, JS.parseFloat.
  destruct (JS.to_string v) as [s|e0] eqn:Hs; cbn [bind_c]; [discriminate|].
  intros [= <-]. apply (to_string_throws_TypeError v e0 Hs).
Qed.

Lemma validateStock_throws_TypeError v e : validateStock v = Throw e -> e = TypeError.
Proof.
  unfold validateStock, JS.parseInt.
  destruct (JS.to_string v) as [s|e0] eqn:Hs; cbn [bind_c]; [discriminate|].
  intros [= <-]. apply (to_string_throws_TypeError v e0 Hs).
Qed.

Lemma validateISBN_throws_TypeError v e : validateISBN v = Throw e -> e = TypeError.
Proof. destruct v; cbn; intros [= <-] || discriminate; reflexivity. Qed.

Lemma and_not_throws a c e : and_not a c = Throw e -> c = Throw e.
Proof.
  unfold and_not. destruct a; [|discriminate].
  destruct c as [ok|e0]; cbn [bind_c]; [discriminate|]. intros [= <-]. reflexivity.
Qed.

(** ** What a cache lookup returns *)

Section CacheLookup.

Context `{Store}.

Lemma next_fault_keyspace c :
  keyspace (snd (Redis.next_fault c)) = keyspace c
  /\ isOpen (snd (Redis.next_fault c)) = isOpen c.
Proof. unfold Redis.next_fault. destruct (faults c); auto. Qed.

(** A lookup returns [null], or the value of the JSON text held under the
    key, unless its command stalls; it changes neither the store nor any
    entry. *)
Lemma getFromCache_spec key (w : world db) :
  exists x w',
    getFromCache key w = (x, w')
    /\ pool w' = pool w
    /\ (forall k, cached_text w' k = cached_text w k)
    /\ connected w' = connected w
    /\ match x with
       | Fulfilled v =>
           v = VNull
           \/ (connected w = true /\ cached_text w key = Some (Json.JsonText v))
       | Rejected _ => False
       | Pending => connected w = true /\ next_fate w = Stalls
       end.
Proof.
  destruct w as [d [[o m fs]|]];
    unfold getFromCache, mbind, M_bind, bind, redis_isOpen, try_catch, ret, lift,
      redis_cmd, connected, cached_text, next_fate, Redis.get, Redis.next_fault;
    cbn.
  2:{ do 2 eexists. split; [reflexivity|]. cbn. auto 10. }
  destruct o; cbn.
  2:{ do 2 eexists. split; [reflexivity|]. cbn. auto 10. }
  destruct fs as [|[] rest]; cbn.
  - destruct (m !! key) as [[v|]|] eqn:Hlk; cbn;
      do 2 eexists; (split; [reflexivity|]); cbn; auto 10.
  - destruct (m !! key) as [[v|]|] eqn:Hlk; cbn;
      do 2 eexists; (split; [reflexivity|]); cbn; auto 10.
  - do 2 eexists. split; [reflexivity|]. cbn. auto 10.
  - do 2 eexists. split; [reflexivity|]. cbn. auto 10.
Qed.

End CacheLookup.

(** ** Cache transparency *)

Section Transparency.

Context `{Store}.

Lemma pool_disconnect (w : world db) : pool (disconnect w) = pool w.
Proof. reflexivity. Qed.

Lemma connected_disconnect (w : world db) : connected (disconnect w) = false.
Proof. unfold connected, disconnect. simpl. destruct (redisClient w); reflexivity. Qed.



End Transparency.

(** ** Concrete runs of the read routes *)

Lemma orwell_cached_is_reached :
  snd (Sample.serve [PostBook Sample.orwell; GetBook (js "1")] Sample.fresh)
  = Sample.orwell_cached.
Proof. vm_compute. reflexivity. Qed.

Lemma orwell_row_is_json : Json.json_clone (RefStore.row Sample.orwell_row)
                           = RefStore.row Sample.orwell_row.
Proof. vm_compute. reflexivity. Qed.

Lemma orwell_cached_coherent : coherent Sample.orwell_cached.
Proof.
  intros key t Hc. unfold cached_text in Hc. simpl in Hc.
  apply lookup_singleton_Some in Hc as [<- <-].
  right. exists (js "1"), (RefStore.row Sample.orwell_row), [].
  split; [reflexivity|]. split; [discriminate|].
  split; [vm_compute; reflexivity|].
  rewrite orwell_row_is_json. reflexivity.
Qed.

(** ** Reading an id that has no record *)

Section ReadMissing.

Context `{Store}.

(** C8, amended.  For an id with no record, when the cache is closed, or
    holds nothing under the key of that id and answers or rejects the
    lookup (the command does not stall), GET /api/books/:id answers 404
    "Book not found"; it changes neither the store nor any cache entry, so
    no entry is populated. *)
Theorem read_one_without_record_and_entry_is_not_found (id : jsstring) (w : world db) :
  select_by_id (pool w) (VStr id) = Normal [] ->
  connected w = false
  \/ (cached_text w (js "books:" ++ id) = None /\ next_fate w <> Stalls) ->
  exists w',
    get_book id w = (Fulfilled (res_json 404 (error_body "Book not found")), w')
    /\ pool w' = pool w
    /\ (forall k, cached_text w' k = cached_text w k).
Proof.
  intros Hsel Hmiss.
  unfold get_book, try_catch, mbind, M_bind, bind, ret, query_select_by_id. cbv beta.
  destruct (getFromCache_spec (js "books:" ++ id) w) as (x & w1 & Hget & Hp1 & Hks & _ & Hx).
  rewrite Hget.
  destruct x as [v|e|]; [|destruct Hx|].
  - assert (Hnull : v = VNull).
    { destruct Hx as [Hv|[Hcon Hc]]; [exact Hv|].
      destruct Hmiss as [Hm|[Hm _]]; congruence. }
    subst v. cbn [JS.truthy]. rewrite Hp1, Hsel. cbn [settled].
    exists w1. auto.
  - destruct Hx as [Hcon Hst]. destruct Hmiss as [Hm|[_ Hm]]; congruence.
Qed.

End ReadMissing.

Lemma read_one_without_record_and_entry_is_not_found_witness :
  select_by_id (pool Sample.orwell_cached) (VStr (js "99")) = Normal []
  /\ (connected Sample.orwell_cached = false
      \/ (cached_text Sample.orwell_cached (js "books:" ++ js "99") = None
          /\ next_fate Sample.orwell_cached <> Stalls))
  /\ exists w',
       get_book (js "99") Sample.orwell_cached
       = (Fulfilled (res_json 404 (error_body "Book not found")), w')
       /\ pool w' = pool Sample.orwell_cached
       /\ (forall k, cached_text w' k = cached_text Sample.orwell_cached k).
Proof.
  assert (Hsel : select_by_id (pool Sample.orwell_cached) (VStr (js "99")) = Normal [])
    by (vm_compute; reflexivity).
  assert (Hmiss : connected Sample.orwell_cached = false
                  \/ (cached_text Sample.orwell_cached (js "books:" ++ js "99") = None
                      /\ next_fate Sample.orwell_cached <> Stalls)).
  { right. split; [vm_compute; reflexivity|discriminate]. }
  split; [exact Hsel|]. split; [exact Hmiss|].
  exact (read_one_without_record_and_entry_is_not_found (H := ref_store)
           (js "99") Sample.orwell_cached Hsel Hmiss).
Defined.

Lemma stale_is_reached :
  Sample.serve [PostBook Sample.orwell; GetBook (js "1"); DeleteBook (js "1")]
    Sample.fresh_failing_fifth
  = ([Fulfilled (res_json 201
        (VObj [(js "id", VNum (Fin 1)); (js "title", VStr (js "1984"));
               (js "author", VStr (js "George Orwell"));
               (js "isbn", VStr (js "9780451524935"));
               (js "price", VNum (Num.round64 (1599 # 100)));
               (js "stock", VNum (Fin 100));
               (js "message", VStr (js "Book created successfully"))]));
      Fulfilled (res_json 200 (RefStore.row Sample.orwell_row));
      Fulfilled (res_json 200 (VObj [(js "message", VStr (js "Book deleted successfully"))]))],
     Sample.stale).
Proof. vm_compute. reflexivity. Qed.

(** C8, as stated, fails: book 1 was read (and cached), then deleted
    while the KEYS command of the invalidation failed, which the helper
    swallows.  The id 1 has no record any more, yet GET /api/books/1
    answers 200 from the cache, and the entry stays.  And an id that has
    neither a record nor an entry gets no answer at all when the lookup
    stalls (the client is open, the server unreachable): the route waits
    for the command and never reaches the store. *)
Lemma read_one_without_record_answers_from_stale_entry :
  select_by_id (pool Sample.stale) (VStr (js "1")) = Normal []
  /\ get_book (js "1") Sample.stale
     = (Fulfilled (res_json 200
                  (VObj (RefStore.row_fields Sample.orwell_row
                           ++ [(js "fromCache", VBool true)]))),
        Sample.stale)
  /\ cached_text Sample.stale (js "books:" ++ js "1")
     = Some (Json.JsonText (RefStore.row Sample.orwell_row))
  /\ select_by_id (pool Sample.stale) (VStr (js "99")) = Normal []
  /\ cached_text Sample.stale (js "books:" ++ js "99") = None
  /\ fst (get_book (js "99") (with_faults [Stalls] Sample.stale)) = Pending.
Proof. repeat split; vm_compute; reflexivity. Qed.

(** The key of the id "all" is the key of the collection: once GET
    /api/books has filled it, GET /api/books/all answers 200 with the
    collection spread into an object, where a closed cache gives 404. *)
Lemma read_one_of_all_hits_the_collection :
  let '(rs, w) := Sample.serve [GetBooks; GetBook (js "all")] Sample.fresh in
  rs = [Fulfilled (res_json 200 (VArr []));
        Fulfilled (res_json 200 (VObj [(js "fromCache", VBool true)]))]
  /\ select_by_id (pool w) (VStr (js "all")) = Normal []
  /\ fst (get_book (js "all") (disconnect w))
     = Fulfilled (res_json 404 (error_body "Book not found")).
Proof. vm_compute. repeat split. Qed.

(** * Further properties of the cache helpers, the routes and start-up *)

(** ** The cache helpers (lines 220-251) *)

Section HelperProperties.

Context `{Store}.


(** X2.  With the client closed (or absent) the helpers send no command
    at all: the lookup yields [null], and the state, key space and fault
    schedule included, is exactly as before. *)
Theorem cache_helpers_do_nothing_when_closed (key pattern : jsstring) (data : value)
    (ttl : Z) (w : world db) :
  connected w = false ->
  getFromCache key w = (Fulfilled VNull, w)
  /\ setToCache key data ttl w = (Fulfilled tt, w)
  /\ invalidateCache pattern w = (Fulfilled tt, w).
Proof.
  intros Hc. split; [apply getFromCache_disconnected; exact Hc|].
  split; [apply setToCache_disconnected; exact Hc|
          apply invalidateCache_disconnected; exact Hc].
Qed.

End HelperProperties.

Lemma cache_helpers_do_nothing_when_closed_witness :
  let w := disconnect Sample.orwell_cached in
  connected w = false
  /\ getFromCache (js "books:1") w = (Fulfilled VNull, w)
  /\ setToCache (js "books:1") VNull 300 w = (Fulfilled tt, w)
  /\ invalidateCache (js "books:*") w = (Fulfilled tt, w).
Proof.
  intros w.
  assert (Hc : connected w = false) by reflexivity.
  split; [exact Hc|].
  exact (cache_helpers_do_nothing_when_closed (H := ref_store)
           (js "books:1") (js "books:*") VNull 300 w Hc).
Defined.

(** ** The helpers in normal operation *)

Section NormalOperation.

Context `{Store}.

Lemma getFromCache_normal_world key (d : db) m :
  getFromCache key (normal_world d m) = (Fulfilled (parsed (m !! key)), normal_world d m).
Proof.
  unfold getFromCache, mbind, M_bind, bind, redis_isOpen, try_catch, ret, lift,
    redis_cmd, normal_world, Redis.get, Redis.next_fault, parsed. simpl.
  destruct (m !! key) as [[v|]|]; reflexivity.
Qed.

Lemma setToCache_normal_world key data ttl (d : db) m :
  data <> VUndefined ->
  setToCache key data ttl (normal_world d m)
  = (Fulfilled tt, normal_world d (<[key := Json.JsonText (Json.json_clone data)]> m)).
Proof.
  intros Hd.
  unfold setToCache, mbind, M_bind, bind, redis_isOpen, try_catch, ret,
    redis_cmd, normal_world, Redis.setEx, Redis.next_fault, Redis.with_keyspace.
  destruct data; try reflexivity. destruct Hd. reflexivity.
Qed.

Lemma setToCache_normal_world_returns key data ttl (d : db) m :
  exists m', setToCache key data ttl (normal_world d m) = (Fulfilled tt, normal_world d m').
Proof.
  destruct data;
    try (eexists; apply setToCache_normal_world; discriminate).
  exists m. reflexivity.
Qed.

Lemma invalidateCache_normal_world pattern (d : db) m :
  invalidateCache pattern (normal_world d m)
  = (Fulfilled tt, normal_world d (invalidated pattern m)).
Proof.
  unfold invalidateCache, mbind, M_bind, bind, redis_isOpen, try_catch, ret,
    redis_cmd, normal_world, Redis.keys, Redis.del, Redis.next_fault,
    Redis.with_keyspace, invalidated. simpl.
  destruct (0 <? length _)%nat; reflexivity.
Qed.

(** X3.  What [setToCache] stores, [getFromCache] returns: in normal
    operation a lookup of the key just set yields the JSON copy of the data
    (properties holding [undefined] dropped), and a lookup of any other key
    yields what it yielded before. *)
Theorem set_then_get_round_trip (key other : jsstring) (data : value) (ttl : Z)
    (d : db) (m : gmap (list N) Json.text) :
  data <> VUndefined ->
  other <> key ->
  exists w1,
    setToCache key data ttl (normal_world d m) = (Fulfilled tt, w1)
    /\ fst (getFromCache key w1) = Fulfilled (Json.json_clone data)
    /\ fst (getFromCache other w1) = fst (getFromCache other (normal_world d m)).
Proof.
  intros Hd Hne. eexists. split; [apply setToCache_normal_world; exact Hd|].
  rewrite !getFromCache_normal_world. simpl.
  rewrite lookup_insert_eq, lookup_insert_ne by congruence.
  split; reflexivity.
Qed.

End NormalOperation.

Lemma set_then_get_round_trip_witness :
  let data := VObj [(js "id", VNum (Fin 1)); (js "note", VUndefined)] in
  data <> VUndefined
  /\ js "books:2" <> js "books:1"
  /\ exists w1,
       setToCache (js "books:1") data 300 (normal_world Sample.empty_db ∅) = (Fulfilled tt, w1)
       /\ fst (getFromCache (js "books:1") w1) = Fulfilled (Json.json_clone data)
       /\ fst (getFromCache (js "books:2") w1)
          = fst (getFromCache (js "books:2") (normal_world Sample.empty_db ∅)).
Proof.
  intros data.
  assert (Hd : data <> VUndefined) by discriminate.
  assert (Hne : js "books:2" <> js "books:1") by discriminate.
  split; [exact Hd|]. split; [exact Hne|].
  exact (set_then_get_round_trip (H := ref_store) (js "books:1") (js "books:2")
           data 300 Sample.empty_db ∅ Hd Hne).
Defined.

(** ** Invalidation *)

Section Invalidation.

Context `{Store}.

Lemma glob_literal c p s :
  N.eqb c (cu "*") = false -> N.eqb c (cu "?") = false ->
  Redis.glob (c :: p) s
  = match s with [] => false | x :: s' => N.eqb c x && Redis.glob p s' end.
Proof.
  intros H1 H2. cbn [Redis.glob]. rewrite H1.
  destruct s as [|x s']; [reflexivity|]. rewrite H2. reflexivity.
Qed.

Lemma glob_star_only s : Redis.glob [cu "*"] s = true.
Proof.
  cbn [Redis.glob]. replace (N.eqb (cu "*") (cu "*")) with true by reflexivity.
  induction s as [|x t IH]; [reflexivity|].
  cbn [Redis.glob orb]. exact IH.
Qed.

(** [KEYS books:*] returns the keys that begin with [books:]. *)
Lemma glob_books_prefix k : Redis.glob (js "books:*") k = starts_with (js "books:") k.
Proof.
  change (js "books:*")
    with (cu "b" :: cu "o" :: cu "o" :: cu "k" :: cu "s" :: cu ":" :: [cu "*"]).
  change (js "books:")
    with (cu "b" :: cu "o" :: cu "o" :: cu "k" :: cu "s" :: [cu ":"]).
  revert k.
  assert (Hstep : forall c p q,
             N.eqb c (cu "*") = false -> N.eqb c (cu "?") = false ->
             (forall s, Redis.glob p s = starts_with q s) ->
             forall s, Redis.glob (c :: p) s = starts_with (c :: q) s).
  { intros c p q H1 H2 IH s. rewrite (glob_literal c p s H1 H2).
    destruct s as [|x s']; [reflexivity|]. cbn [starts_with]. rewrite IH. reflexivity. }
  do 6 (apply Hstep; [reflexivity|reflexivity|]).
  intros s. rewrite glob_star_only. reflexivity.
Qed.

Lemma invalidated_lookup_prefix m k :
  starts_with (js "books:") k = true -> invalidated default_pattern m !! k = None.
Proof.
  intros Hk. unfold invalidated.
  set (ks := List.filter _ _).
  destruct (decide (k = js "books:all")) as [->|Hne].
  { apply lookup_foldr_delete. apply list_elem_of_singleton. reflexivity. }
  rewrite lookup_foldr_delete_not_elem_of
    by (rewrite list_elem_of_singleton; exact Hne).
  destruct (m !! k) as [t|] eqn:Hm.
  - assert (Hin : k ∈ ks).
    { unfold ks. apply list_elem_of_In, filter_In. split.
      - apply list_elem_of_In. apply (list_elem_of_fmap_2 fst _ (k, t)).
        apply elem_of_map_to_list. exact Hm.
      - unfold default_pattern. rewrite glob_books_prefix. exact Hk. }
    assert (Hpos : (0 <? length ks)%nat = true).
    { apply Nat.ltb_lt. destruct ks; [inversion Hin|simpl; lia]. }
    rewrite Hpos. apply lookup_foldr_delete. exact Hin.
  - destruct (0 <? length ks)%nat; [|exact Hm].
    destruct (decide (k ∈ ks)) as [Hin|Hnin].
    + apply lookup_foldr_delete. exact Hin.
    + rewrite lookup_foldr_delete_not_elem_of by exact Hnin. exact Hm.
Qed.

Lemma invalidated_lookup_other m k :
  starts_with (js "books:") k = false -> invalidated default_pattern m !! k = m !! k.
Proof.
  intros Hk. unfold invalidated.
  set (ks := List.filter _ _).
  assert (Hne : k <> js "books:all") by (intros ->; discriminate).
  rewrite lookup_foldr_delete_not_elem_of
    by (rewrite list_elem_of_singleton; exact Hne).
  destruct (0 <? length ks)%nat; [|reflexivity].
  apply lookup_foldr_delete_not_elem_of.
  unfold ks. rewrite list_elem_of_In, filter_In. intros [_ Hg].
  unfold default_pattern in Hg. rewrite glob_books_prefix in Hg. congruence.
Qed.

(** X4.  In normal operation [invalidateCache()] removes every key that
    begins with [books:] (the per-book entries and the collection) and
    leaves every other key of the cache as it is; the store handle is not
    touched. *)
Theorem invalidateCache_clears_exactly_the_books_keys (d : db)
    (m : gmap (list N) Json.text) :
  exists m',
    invalidateCache default_pattern (normal_world d m) = (Fulfilled tt, normal_world d m')
    /\ (forall k, starts_with (js "books:") k = true -> m' !! k = None)
    /\ (forall k, starts_with (js "books:") k = false -> m' !! k = m !! k).
Proof.
  exists (invalidated default_pattern m).
  split; [apply invalidateCache_normal_world|].
  split; [apply invalidated_lookup_prefix|apply invalidated_lookup_other].
Qed.


End Invalidation.

(** ** The routes answer, or wait for the cache *)

Section RoutesAnswer.

Context `{Store}.

Ltac open_route :=
  unfold handle, get_books, get_book, post_book, put_book, delete_book_route,
    try_catch, mbind, M_bind, bind, lift, ret, query_write,
    query_select_all, query_select_by_id, settled; cbv beta.

(** A helper called in the state [w1], reached from [w] by helpers: it
    returns, or the route is left waiting. *)
Ltac call_helper Hout w1 :=
  let Hp := fresh "Hp" in
  let Hc := fresh "Hc" in
  let Hs := fresh "Hs" in
  let Hx := fresh "Hx" in
  match type of Hout with
  | helper_outcome _ ?call =>
      destruct call as [[?|?|] w1]; unfold helper_outcome in Hout;
      cbn [fst snd] in Hout; destruct Hout as (Hp & Hc & Hs & Hx);
      [|destruct Hx|]
  end.

Lemma stalls_back (w w1 : world db) :
  (stalls w = false -> stalls w1 = false) -> stalls w1 = true -> stalls w = true.
Proof. destruct (stalls w); [reflexivity|]. intros Hs H1. rewrite Hs in H1; auto. Qed.

Ltac answered := simpl; tauto.

Lemma handle_outcome (req : request) (w : world db) :
  route_outcome req w (fst (handle req w)).
Proof.
  unfold route_outcome.
  destruct req as [|id|b|id b|id]; open_route.
  - pose proof (getFromCache_outcome (js "books:all") w) as Hg. call_helper Hg w1.
    2:{ exact Hx. }
    destruct (JS.truthy _); [answered|].
    destruct (select_all (pool w1)) as [rows|e]; [|answered].
    pose proof (setToCache_outcome (js "books:all") (VArr rows) CACHE_TTL w1) as Hset.
    call_helper Hset w2; [answered|].
    cbn. destruct Hx0 as [Hst Hcon]. split; [eapply stalls_back; eauto|congruence].
  - pose proof (getFromCache_outcome (js "books:" ++ id) w) as Hg. call_helper Hg w1.
    2:{ exact Hx. }
    destruct (JS.truthy _); [answered|].
    destruct (select_by_id (pool w1) (VStr id)) as [[|row rest]|e];
      [answered| |answered].
    pose proof (setToCache_outcome (js "books:" ++ id) row CACHE_TTL w1) as Hset.
    call_helper Hset w2; [answered|].
    cbn. destruct Hx0 as [Hst Hcon]. split; [eapply stalls_back; eauto|congruence].
  - destruct (destructure b) as [[[[[t a] i] p] s]|e].
    2:{ destruct e as [| |code]; [answered|answered|].
        destruct (jsstring_eqb code _); answered. }
    destruct (create_checks t a i p s) as [[r0|]|e] eqn:Hc.
    + apply create_checks_rejects_with_400 in Hc. simpl. rewrite Hc. tauto.
    + cbv beta. destruct (insert_book _ _ _ _ _ _) as [[n d]|e].
      * pose proof (invalidateCache_outcome default_pattern
                      {| pool := d; redisClient := redisClient w |}) as Hinv.
        call_helper Hinv w1; [answered|exact Hx].
      * destruct e as [| |code]; [answered|answered|].
        destruct (jsstring_eqb code _); answered.
    + destruct e as [| |code]; [answered|answered|].
      destruct (jsstring_eqb code _); answered.
  - destruct (destructure b) as [[[[[t a] i] p] s]|e]; [|answered].
    destruct (update_checks i p s) as [[r0|]|e] eqn:Hc; [| |answered].
    + apply update_checks_rejects_with_400 in Hc. simpl. rewrite Hc. tauto.
    + cbv beta. destruct (update_book _ _ _ _ _ _ _) as [[n d]|e]; [|answered].
      destruct (n =? 0); [answered|].
      pose proof (invalidateCache_outcome default_pattern
                    {| pool := d; redisClient := redisClient w |}) as Hinv.
      call_helper Hinv w1; [answered|exact Hx].
  - destruct (delete_book _ _) as [[n d]|e]; [|answered].
    destruct (n =? 0); [answered|].
    pose proof (invalidateCache_outcome default_pattern
                  {| pool := d; redisClient := redisClient w |}) as Hinv.
    call_helper Hinv w1; [answered|exact Hx].
Qed.

(** X6.  No exception escapes a route, whatever the request, the store
    and the cache do.  A route answers, with one of the statuses it names
    (200/500 for the list, 200/404/500 for one book, 201/400/409/500 for
    create, 200/400/404/500 for update, 200/404/500 for delete), or it
    never answers; and it never answers only when the cache client is open
    and one of its commands stalls.  When no command of the schedule
    stalls, the route answers. *)
Theorem routes_always_answer (req : request) (w : world db) :
  route_outcome req w (fst (handle req w))
  /\ (stalls w = false ->
      exists r w', handle req w = (Fulfilled r, w') /\ In (status r) (statuses_of req)).
Proof.
  pose proof (handle_outcome req w) as Ho.
  split; [exact Ho|]. intros Hno. unfold route_outcome in Ho.
  destruct (handle req w) as [[r|e|] w']; cbn [fst] in Ho.
  - eauto.
  - destruct Ho.
  - destruct Ho. congruence.
Qed.

End RoutesAnswer.

(** ** The checks of the write routes *)

Section Checks.

Context `{Store}.

Ltac open_route :=
  unfold handle, get_books, get_book, post_book, put_book, delete_book_route,
    try_catch, mbind, M_bind, bind, lift, ret, query_write,
    query_select_all, query_select_by_id, settled; cbv beta.

Lemma and_not_false a c :
  and_not a c = Normal false -> a = false \/ c = Normal true.
Proof.
  unfold and_not. destruct a; [|auto].
  destruct c as [[|]|e]; cbn; [auto|discriminate|discriminate].
Qed.


Lemma update_checks_pass i p s :
  update_checks i p s = Normal None ->
  (JS.truthy i = false \/ validateISBN i = Normal true)
  /\ (JS.is_defined p = false \/ validatePrice p = Normal true)
  /\ (JS.is_defined s = false \/ validateStock s = Normal true).
Proof.
  unfold update_checks.
  destruct (and_not _ (validateISBN i)) as [[|]|e] eqn:Hi; simpl; try discriminate.
  destruct (and_not _ (validatePrice p)) as [[|]|e] eqn:Hp; simpl; try discriminate.
  destruct (and_not _ (validateStock s)) as [[|]|e] eqn:Hs; simpl; try discriminate.
  apply and_not_false in Hi, Hp, Hs. intros _. auto 10.
Qed.





End Checks.


(** ** Rejected and conflicting writes *)

Section Rejections.

Context `{Store}.

Ltac open_route :=
  unfold handle, get_books, get_book, post_book, put_book, delete_book_route,
    try_catch, mbind, M_bind, bind, lift, ret, query_write,
    query_select_all, query_select_by_id, settled; cbv beta.

(** Closes a branch whose response has another status than the one assumed. *)
Ltac other_status :=
  let Hst := fresh "Hst" in
  intros [= <- <-] Hst; simpl in Hst; discriminate Hst.

Ltac use_get key w :=
  let v := fresh "v" in
  let w1 := fresh "w" in
  let Hget := fresh "Hget" in
  let Hx := fresh "Hx" in
  destruct (getFromCache_cases key w) as (w1 & _ & [[v Hget]|Hget]); rewrite Hget;
  [|intros Hx; discriminate Hx].

Ltac use_set key data w :=
  let w1 := fresh "w" in
  let Hset := fresh "Hset" in
  let Hx := fresh "Hx" in
  destruct (setToCache_cases key data CACHE_TTL w) as (w1 & _ & [Hset|Hset]); rewrite Hset;
  [|intros Hx; discriminate Hx].

Ltac use_invalidate w :=
  let w1 := fresh "w" in
  let Hinv := fresh "Hinv" in
  let Hx := fresh "Hx" in
  destruct (invalidateCache_cases default_pattern w) as (w1 & _ & [Hinv|Hinv]); rewrite Hinv;
  [|intros Hx; discriminate Hx].

Lemma destructure_throws_TypeError b e : destructure b = Throw e -> e = TypeError.
Proof. destruct b; simpl; intros [= <-] || discriminate; reflexivity. Qed.

Lemma create_checks_throws_TypeError t a i p s e :
  create_checks t a i p s = Throw e -> e = TypeError.
Proof.
  unfold create_checks. destruct (_ || _); [discriminate|].
  destruct (validateISBN i) as [ok|e0] eqn:Hi; cbn [bind_c].
  2:{ intros [= <-]. apply (validateISBN_throws_TypeError i e0 Hi). }
  destruct (negb ok); [discriminate|].
  destruct (and_not _ (validatePrice p)) as [[|]|e0] eqn:Hp; cbn [bind_c];
    [discriminate| |].
  2:{ intros [= <-]. apply and_not_throws in Hp.
      apply (validatePrice_throws_TypeError p e0 Hp). }
  destruct (and_not _ (validateStock s)) as [[|]|e0] eqn:Hs; cbn [bind_c];
    [discriminate|discriminate|].
  intros [= <-]. apply and_not_throws in Hs.
  apply (validateStock_throws_TypeError s e0 Hs).
Qed.

(** X8.  A 400 is only ever the verdict of a check, and a request answered
    400 has reached neither the store nor the cache: the process state is
    exactly as before. *)
Theorem rejected_request_changes_nothing (req : request) (w w' : world db)
    (r : response) :
  handle req w = (Fulfilled r, w') ->
  status r = 400 ->
  w' = w /\ checks req = Normal (Some r).
Proof.
  destruct req as [|id|b|id b|id]; open_route.
  - use_get (js "books:all") w.
    destruct (JS.truthy v); [other_status|].
    destruct (select_all (pool w0)) as [rows|e]; [|other_status].
    use_set (js "books:all") (VArr rows) w0. other_status.
  - use_get (js "books:" ++ id) w.
    destruct (JS.truthy v); [other_status|].
    destruct (select_by_id (pool w0) (VStr id)) as [[|row rest]|e];
      [other_status| |other_status].
    use_set (js "books:" ++ id) row w0. other_status.
  - unfold checks.
    destruct (destructure b) as [[[[[t a] i] p] s]|e].
    2:{ destruct e as [| |code]; [other_status|other_status|].
        destruct (jsstring_eqb code _); other_status. }
    destruct (create_checks t a i p s) as [[r0|]|e].
    + intros [= <- <-] _. auto.
    + cbv beta. destruct (insert_book _ _ _ _ _ _) as [[n d]|e].
      * use_invalidate {| pool := d; redisClient := redisClient w |}. other_status.
      * destruct e as [| |code]; [other_status|other_status|].
        destruct (jsstring_eqb code _); other_status.
    + destruct e as [| |code]; [other_status|other_status|].
      destruct (jsstring_eqb code _); other_status.
  - unfold checks.
    destruct (destructure b) as [[[[[t a] i] p] s]|e]; [|other_status].
    destruct (update_checks i p s) as [[r0|]|e]; [| |other_status].
    + intros [= <- <-] _. auto.
    + cbv beta. destruct (update_book _ _ _ _ _ _ _) as [[n d]|e]; [|other_status].
      destruct (n =? 0); [other_status|].
      use_invalidate {| pool := d; redisClient := redisClient w |}. other_status.
  - destruct (delete_book _ _) as [[n d]|e]; [|other_status].
    destruct (n =? 0); [other_status|].
    use_invalidate {| pool := d; redisClient := redisClient w |}. other_status.
Qed.

(** X9.  A 409 is sent by the create route only, and only when its checks
    have passed and the INSERT threw a driver error whose code is
    ER_DUP_ENTRY; store and cache are then exactly as before. *)
Theorem conflict_means_duplicate_entry_on_create (req : request) (w w' : world db)
    (r : response) :
  handle req w = (Fulfilled r, w') ->
  status r = 409 ->
  w' = w
  /\ checks req = Normal None
  /\ statement req (pool w) = Some (Throw (CodedError (js "ER_DUP_ENTRY")))
  /\ exists b, req = PostBook b.
Proof.
  destruct req as [|id|b|id b|id]; open_route.
  - use_get (js "books:all") w.
    destruct (JS.truthy v); [other_status|].
    destruct (select_all (pool w0)) as [rows|e]; [|other_status].
    use_set (js "books:all") (VArr rows) w0. other_status.
  - use_get (js "books:" ++ id) w.
    destruct (JS.truthy v); [other_status|].
    destruct (select_by_id (pool w0) (VStr id)) as [[|row rest]|e];
      [other_status| |other_status].
    use_set (js "books:" ++ id) row w0. other_status.
  - unfold checks, statement.
    destruct (destructure b) as [[[[[t a] i] p] s]|e] eqn:Hd.
    2:{ apply destructure_throws_TypeError in Hd. subst e. other_status. }
    destruct (create_checks t a i p s) as [[r0|]|e] eqn:Hc.
    + intros [= <- <-] Hst. apply create_checks_rejects_with_400 in Hc. congruence.
    + cbv beta. destruct (insert_book _ _ _ _ _ _) as [[n d]|e].
      * use_invalidate {| pool := d; redisClient := redisClient w |}. other_status.
      * destruct e as [| |code]; [other_status|other_status|].
        unfold jsstring_eqb. case_bool_decide as Hcode; [|other_status].
        subst code. intros [= <- <-] _. eauto 10.
    + apply create_checks_throws_TypeError in Hc. subst e. other_status.
  - unfold checks.
    destruct (destructure b) as [[[[[t a] i] p] s]|e]; [|other_status].
    destruct (update_checks i p s) as [[r0|]|e] eqn:Hc; [| |other_status].
    + intros [= <- <-] Hst. apply update_checks_rejects_with_400 in Hc. congruence.
    + cbv beta. destruct (update_book _ _ _ _ _ _ _) as [[n d]|e]; [|other_status].
      destruct (n =? 0); [other_status|].
      use_invalidate {| pool := d; redisClient := redisClient w |}. other_status.
  - destruct (delete_book _ _) as [[n d]|e]; [|other_status].
    destruct (n =? 0); [other_status|].
    use_invalidate {| pool := d; redisClient := redisClient w |}. other_status.
Qed.

End Rejections.

Lemma rejected_request_changes_nothing_witness :
  let req := PostBook (Sample.book_body "Ulysses" "James Joyce" (VStr (js "1234"))
                         (VNum (Fin 12)) (VNum (Fin 7))) in
  let r := res_json 400 (error_body "Invalid ISBN format. Must be ISBN-10 or ISBN-13") in
  handle req Sample.orwell_cached = (Fulfilled r, Sample.orwell_cached)
  /\ status r = 400
  /\ Sample.orwell_cached = Sample.orwell_cached
  /\ checks req = Normal (Some r).
Proof.
  intros req r.
  assert (Hrun : handle req Sample.orwell_cached = (Fulfilled r, Sample.orwell_cached))
    by (vm_compute; reflexivity).
  split; [exact Hrun|]. split; [reflexivity|].
  exact (rejected_request_changes_nothing (H := ref_store)
           req Sample.orwell_cached Sample.orwell_cached r Hrun eq_refl).
Defined.

Lemma conflict_means_duplicate_entry_on_create_witness :
  let req := PostBook Sample.orwell_again in
  let r := res_json 409 (error_body "Book with this ISBN already exists") in
  handle req Sample.orwell_cached = (Fulfilled r, Sample.orwell_cached)
  /\ status r = 409
  /\ Sample.orwell_cached = Sample.orwell_cached
  /\ checks req = Normal None
  /\ statement req (pool Sample.orwell_cached)
     = Some (Throw (CodedError (js "ER_DUP_ENTRY")))
  /\ exists b, req = PostBook b.
Proof.
  intros req r.
  assert (Hrun : handle req Sample.orwell_cached = (Fulfilled r, Sample.orwell_cached))
    by (vm_compute; reflexivity).
  split; [exact Hrun|]. split; [reflexivity|].
  exact (conflict_means_duplicate_entry_on_create (H := ref_store)
           req Sample.orwell_cached Sample.orwell_cached r Hrun eq_refl).
Defined.

Section RequiredFields.

Context `{Store}.

(** X10.  A create request (with a body that can be destructured) whose
    title, author or ISBN is missing or falsy (absent, [null], the empty
    string, 0, [false]) is answered 400 "Title, author, and ISBN are
    required" before any other check and before the store: the state is
    unchanged.  An array body is such a request. *)
Theorem create_requires_title_author_isbn (b : value) (w : world db) :
  b <> VUndefined -> b <> VNull ->
  JS.truthy (Obj.get (js "title") b) = false
  \/ JS.truthy (Obj.get (js "author") b) = false
  \/ JS.truthy (Obj.get (js "isbn") b) = false ->
  post_book b w
  = (Fulfilled (res_json 400 (error_body "Title, author, and ISBN are required")), w).
Proof.
  intros Hu Hn Hfalsy.
  unfold post_book, try_catch, mbind, M_bind, bind, lift, ret, settled. cbv beta.
  assert (Hd : destructure b
               = Normal (Obj.get (js "title") b, Obj.get (js "author") b,
                         Obj.get (js "isbn") b, Obj.get (js "price") b,
                         Obj.get (js "stock") b))
    by (destruct b; try reflexivity; congruence).
  rewrite Hd. unfold create_checks.
  replace (negb (JS.truthy (Obj.get (js "title") b))
           || negb (JS.truthy (Obj.get (js "author") b))
           || negb (JS.truthy (Obj.get (js "isbn") b))) with true; [reflexivity|].
  destruct Hfalsy as [Hf|[Hf|Hf]]; rewrite Hf; simpl;
    rewrite ?orb_true_r; reflexivity.
Qed.

(** What a 200 of the update route tells. *)
Lemma put_book_200 id b w r w' :
  put_book id b w = (Fulfilled r, w') -> status r = 200 ->
  exists t a i p s n,
    destructure b = Normal (t, a, i, p, s)
    /\ update_checks i p s = Normal None
    /\ update_book (pool w) t a i p s (VStr id) = Normal (n, pool w')
    /\ n <> 0.
Proof.
  unfold put_book, try_catch, mbind, M_bind, bind, lift, ret, query_write, settled.
  cbv beta.
  destruct (destructure b) as [[[[[t a] i] p] s]|e] eqn:Hd;
    [|intros [= <- <-]; discriminate].
  destruct (update_checks i p s) as [[r0|]|e] eqn:Hc;
    [|cbv beta|intros [= <- <-]; discriminate].
  - intros [= <- <-] Hst. apply update_checks_rejects_with_400 in Hc. congruence.
  - destruct (update_book _ _ _ _ _ _ _) as [[n d]|e] eqn:Hupd;
      [|intros [= <- <-]; discriminate].
    destruct (n =? 0) eqn:Hn; [intros [= <- <-]; discriminate|].
    destruct (invalidateCache_cases default_pattern
                {| pool := d; redisClient := redisClient w |})
      as (w1 & Hpool & [Hinv|Hinv]); rewrite Hinv; [|discriminate].
    intros [= <- <-] _.
    exists t, a, i, p, s, n. simpl in Hpool. rewrite Hpool.
    apply Z.eqb_neq in Hn. auto.
Qed.

(** X11.  Whenever the update route answers 200, the UPDATE it sent
    matched at least one row, and each of ISBN, price and stock had either
    passed its validator or been skipped (a falsy ISBN, an [undefined] price
    or stock) and sent to the store as submitted. *)
Theorem updated_book_was_validated_or_skipped (id : jsstring) (b : value)
    (w w' : world db) (r : response) :
  put_book id b w = (Fulfilled r, w') ->
  status r = 200 ->
  (exists n, n <> 0
     /\ update_book (pool w) (Obj.get (js "title") b) (Obj.get (js "author") b)
          (Obj.get (js "isbn") b) (Obj.get (js "price") b) (Obj.get (js "stock") b)
          (VStr id)
        = Normal (n, pool w'))
  /\ (JS.truthy (Obj.get (js "isbn") b) = false
      \/ validateISBN (Obj.get (js "isbn") b) = Normal true)
  /\ (Obj.get (js "price") b = VUndefined
      \/ validatePrice (Obj.get (js "price") b) = Normal true)
  /\ (Obj.get (js "stock") b = VUndefined
      \/ validateStock (Obj.get (js "stock") b) = Normal true).
Proof.
  intros Hrun Hst.
  destruct (put_book_200 _ _ _ _ _ Hrun Hst) as (t & a & i & p & s & n & Hd & Hc & Hupd & Hn).
  apply destructure_get in Hd as (-> & -> & -> & -> & ->).
  apply update_checks_pass in Hc as (Hi & Hp & Hs).
  split; [exists n; auto|]. split; [exact Hi|].
  split.
  - destruct Hp as [Hp|Hp]; [left|right; exact Hp].
    destruct (Obj.get (js "price") b); try discriminate; reflexivity.
  - destruct Hs as [Hs|Hs]; [left|right; exact Hs].
    destruct (Obj.get (js "stock") b); try discriminate; reflexivity.
Qed.

End RequiredFields.

Lemma create_requires_title_author_isbn_witness :
  let b := VArr [VStr (js "Ulysses"); VStr (js "James Joyce")] in
  b <> VUndefined /\ b <> VNull
  /\ (JS.truthy (Obj.get (js "title") b) = false
      \/ JS.truthy (Obj.get (js "author") b) = false
      \/ JS.truthy (Obj.get (js "isbn") b) = false)
  /\ post_book b Sample.orwell_cached
     = (Fulfilled (res_json 400 (error_body "Title, author, and ISBN are required")),
        Sample.orwell_cached).
Proof.
  intros b.
  assert (Hu : b <> VUndefined) by discriminate.
  assert (Hn : b <> VNull) by discriminate.
  assert (Hf : JS.truthy (Obj.get (js "title") b) = false
               \/ JS.truthy (Obj.get (js "author") b) = false
               \/ JS.truthy (Obj.get (js "isbn") b) = false) by (left; reflexivity).
  split; [exact Hu|]. split; [exact Hn|]. split; [exact Hf|].
  exact (create_requires_title_author_isbn (H := ref_store) b Sample.orwell_cached Hu Hn Hf).
Defined.

Lemma updated_book_was_validated_or_skipped_witness :
  let w := normal_world (RefStore.with_books Sample.empty_db [Sample.orwell_row] 2) ∅ in
  let w' := normal_world
              (RefStore.with_books Sample.empty_db
                 [{| RefStore.id := 1; RefStore.title := js "Ulysses";
                     RefStore.author := js "James Joyce";
                     RefStore.isbn := js "0451524935";
                     RefStore.price := None; RefStore.stock := None;
                     RefStore.created_at := 1768039200;
                     RefStore.updated_at := 1768039200 |}] 2) ∅ in
  let r := res_json 200
             (VObj [(js "id", VNum (Fin 1)); (js "title", VStr (js "Ulysses"));
                    (js "author", VStr (js "James Joyce"));
                    (js "isbn", VStr (js "0451524935"));
                    (js "message", VStr (js "Book updated successfully"))]) in
  put_book (js "1") Sample.joyce_bare w = (Fulfilled r, w')
  /\ status r = 200
  /\ (exists n, n <> 0
        /\ update_book (pool w) (Obj.get (js "title") Sample.joyce_bare)
             (Obj.get (js "author") Sample.joyce_bare)
             (Obj.get (js "isbn") Sample.joyce_bare)
             (Obj.get (js "price") Sample.joyce_bare)
             (Obj.get (js "stock") Sample.joyce_bare) (VStr (js "1"))
           = Normal (n, pool w'))
  /\ (JS.truthy (Obj.get (js "isbn") Sample.joyce_bare) = false
      \/ validateISBN (Obj.get (js "isbn") Sample.joyce_bare) = Normal true)
  /\ (Obj.get (js "price") Sample.joyce_bare = VUndefined
      \/ validatePrice (Obj.get (js "price") Sample.joyce_bare) = Normal true)
  /\ (Obj.get (js "stock") Sample.joyce_bare = VUndefined
      \/ validateStock (Obj.get (js "stock") Sample.joyce_bare) = Normal true).
Proof.
  intros w w' r.
  assert (Hrun : put_book (js "1") Sample.joyce_bare w = (Fulfilled r, w'))
    by (vm_compute; reflexivity).
  split; [exact Hrun|]. split; [reflexivity|].
  exact (updated_book_was_validated_or_skipped (H := ref_store)
           (js "1") Sample.joyce_bare w w' r Hrun eq_refl).
Defined.

(** ** Reads in normal operation *)

Section Reads.

Context `{Store}.

Ltac open_read :=
  unfold get_books, get_book, try_catch, mbind, M_bind, bind, ret,
    query_select_all, query_select_by_id; cbv beta.

Lemma get_book_hit (id : jsstring) (d : db) (m : gmap (list N) Json.text) (v : value) :
  JS.truthy v = true ->
  m !! (js "books:" ++ id) = Some (Json.JsonText v) ->
  get_book id (normal_world d m)
  = (Fulfilled {| status := 200; body := from_cache v |}, normal_world d m).
Proof.
  intros Hv Hm. open_read.
  rewrite getFromCache_normal_world, Hm. cbn [parsed]. rewrite Hv. reflexivity.
Qed.

(** X12.  A hit is answered from the cache alone: when the cache holds a
    truthy value under the key of the id, GET /api/books/:id answers 200
    with that value and the member [fromCache: true], whatever the store
    holds or does (it may be unreachable, the record may be gone); the
    state is unchanged. *)
Theorem cache_hit_is_answered_without_the_store (id : jsstring) (d1 d2 : db)
    (m : gmap (list N) Json.text) (v : value) :
  JS.truthy v = true ->
  m !! (js "books:" ++ id) = Some (Json.JsonText v) ->
  get_book id (normal_world d1 m)
  = (Fulfilled {| status := 200; body := from_cache v |}, normal_world d1 m)
  /\ fst (get_book id (normal_world d2 m)) = fst (get_book id (normal_world d1 m)).
Proof.
  intros Hv Hm. rewrite !(get_book_hit id _ m v Hv Hm). split; reflexivity.
Qed.

(** X13.  A miss fills the cache and the next read is a hit: when the
    cache holds nothing under the key and the store returns a row (whose
    JSON copy is truthy, as that of any object is), GET /api/books/:id
    answers 200 with the row, and the same request sent again answers 200
    with the same members plus [fromCache: true], from the cache. *)
Theorem read_one_miss_then_hit (id : jsstring) (d : db) (m : gmap (list N) Json.text)
    (row0 : value) (rest : list value) :
  m !! (js "books:" ++ id) = None ->
  select_by_id d (VStr id) = Normal (row0 :: rest) ->
  JS.truthy (Json.json_clone row0) = true ->
  exists r1 w1,
    get_book id (normal_world d m) = (Fulfilled r1, w1)
    /\ r1 = res_json 200 row0
    /\ get_book id w1 = (Fulfilled {| status := 200; body := from_cache (body r1) |}, w1).
Proof.
  intros Hm Hsel Htruthy.
  assert (Hrow : row0 <> VUndefined) by (intros ->; discriminate).
  do 2 eexists. split.
  - open_read. rewrite getFromCache_normal_world, Hm. cbn [parsed JS.truthy].
    change (pool (normal_world d m)) with d. rewrite Hsel. cbn [settled].
    rewrite setToCache_normal_world by exact Hrow. reflexivity.
  - split; [reflexivity|].
    apply get_book_hit; [exact Htruthy|apply lookup_insert_eq].
Qed.


End Reads.

Lemma cache_hit_is_answered_without_the_store_witness :
  let v := RefStore.row Sample.orwell_row in
  let m : gmap (list N) Json.text := {[ js "books:1" := Json.JsonText v ]} in
  let d1 := RefStore.with_books Sample.empty_db [] 2 in
  let d2 : RefStore.state :=
    {| RefStore.reachable := false; RefStore.books := [];
       RefStore.auto_increment := 2; RefStore.now := 1768039200 |} in
  JS.truthy v = true
  /\ m !! (js "books:" ++ js "1") = Some (Json.JsonText v)
  /\ get_book (js "1") (normal_world d1 m)
     = (Fulfilled {| status := 200; body := from_cache v |}, normal_world d1 m)
  /\ fst (get_book (js "1") (normal_world d2 m))
     = fst (get_book (js "1") (normal_world d1 m)).
Proof.
  intros v m d1 d2.
  assert (Hv : JS.truthy v = true) by reflexivity.
  assert (Hm : m !! (js "books:" ++ js "1") = Some (Json.JsonText v))
    by apply lookup_singleton_eq.
  split; [exact Hv|]. split; [exact Hm|].
  exact (cache_hit_is_answered_without_the_store (H := ref_store)
           (js "1") d1 d2 m v Hv Hm).
Defined.


Lemma read_one_miss_then_hit_witness :
  let d := RefStore.with_books Sample.empty_db [Sample.orwell_row] 2 in
  let row0 := RefStore.row Sample.orwell_row in
  (∅ : gmap (list N) Json.text) !! (js "books:" ++ js "1") = None
  /\ select_by_id d (VStr (js "1")) = Normal [row0]
  /\ JS.truthy (Json.json_clone row0) = true
  /\ exists r1 w1,
       get_book (js "1") (normal_world d ∅) = (Fulfilled r1, w1)
       /\ r1 = res_json 200 row0
       /\ get_book (js "1") w1
          = (Fulfilled {| status := 200; body := from_cache (body r1) |}, w1).
Proof.
  intros d row0.
  assert (Hm : (∅ : gmap (list N) Json.text) !! (js "books:" ++ js "1") = None)
    by apply lookup_empty.
  assert (Hsel : select_by_id d (VStr (js "1")) = Normal [row0])
    by (vm_compute; reflexivity).
  assert (Ht : JS.truthy (Json.json_clone row0) = true) by reflexivity.
  split; [exact Hm|]. split; [exact Hsel|]. split; [exact Ht|].
  exact (read_one_miss_then_hit (H := ref_store) (js "1") d ∅ row0 [] Hm Hsel Ht).
Defined.

(** ** Writes followed by reads, and the coherence of the cache *)

Section WriteThenRead.

Context `{Store}.

Ltac open_route :=
  unfold handle, get_books, get_book, post_book, put_book, delete_book_route,
    try_catch, mbind, M_bind, bind, lift, ret, query_write,
    query_select_all, query_select_by_id, settled; cbv beta.

Ltac other_status :=
  let Hst := fresh "Hst" in
  intros [= <- <-] Hst; simpl in Hst; destruct Hst; discriminate.

(** A write that succeeds in normal operation: its statement returned, and
    the cache was invalidated. *)
Lemma write_success_normal req (d : db) m r w' :
  is_write req = true ->
  handle req (normal_world d m) = (Fulfilled r, w') ->
  status r = 200 \/ status r = 201 ->
  exists n d',
    statement req d = Some (Normal (n, d'))
    /\ w' = normal_world d' (invalidated default_pattern m).
Proof.
  intros Hw. destruct req as [|id|b|id b|id]; try discriminate; clear Hw;
    open_route; unfold statement; change (pool (normal_world d m)) with d.
  - destruct (destructure b) as [[[[[t a] i] p] s]|e] eqn:Hd.
    2:{ apply destructure_throws_TypeError in Hd. subst e. other_status. }
    destruct (create_checks t a i p s) as [[r0|]|e] eqn:Hc.
    + intros [= <- <-] Hst. apply create_checks_rejects_with_400 in Hc.
      destruct Hst; congruence.
    + cbv beta. change (pool (normal_world d m)) with d.
      destruct (insert_book d _ _ _ _ _) as [[n d1]|e].
      * change {| pool := d1; redisClient := redisClient (normal_world d m) |}
          with (normal_world d1 m).
        rewrite invalidateCache_normal_world. intros [= <- <-] _. eauto.
      * destruct e as [| |code]; [other_status|other_status|].
        destruct (jsstring_eqb code _); other_status.
    + apply create_checks_throws_TypeError in Hc. subst e. other_status.
  - destruct (destructure b) as [[[[[t a] i] p] s]|e]; [|other_status].
    destruct (update_checks i p s) as [[r0|]|e] eqn:Hc; [| |other_status].
    + intros [= <- <-] Hst. apply update_checks_rejects_with_400 in Hc.
      destruct Hst; congruence.
    + cbv beta. change (pool (normal_world d m)) with d.
      destruct (update_book d _ _ _ _ _ _) as [[n d1]|e]; [|other_status].
      destruct (n =? 0); [other_status|].
      change {| pool := d1; redisClient := redisClient (normal_world d m) |}
        with (normal_world d1 m).
      rewrite invalidateCache_normal_world. intros [= <- <-] _. eauto.
  - destruct (delete_book d _) as [[n d1]|e]; [|other_status].
    destruct (n =? 0); [other_status|].
    change {| pool := d1; redisClient := redisClient (normal_world d m) |}
      with (normal_world d1 m).
    rewrite invalidateCache_normal_world. intros [= <- <-] _. eauto.
Qed.



Lemma get_book_miss_normal id (d : db) m :
  m !! (js "books:" ++ id) = None ->
  fst (get_book id (normal_world d m)) = Fulfilled (read_one_from_store d id).
Proof.
  intros Hm. open_route. unfold read_one_from_store.
  rewrite getFromCache_normal_world, Hm. cbn [parsed JS.truthy].
  change (pool (normal_world d m)) with d.
  destruct (select_by_id d (VStr id)) as [[|row0 rest]|e]; try reflexivity.
  destruct (setToCache_normal_world_returns (js "books:" ++ id) row0 CACHE_TTL d m)
    as (m1 & Hset).
  rewrite Hset. reflexivity.
Qed.

Lemma get_books_miss_normal (d : db) m :
  m !! js "books:all" = None ->
  fst (get_books (normal_world d m)) = Fulfilled (read_all_from_store d).
Proof.
  intros Hm. open_route. unfold read_all_from_store.
  rewrite getFromCache_normal_world, Hm. cbn [parsed JS.truthy].
  change (pool (normal_world d m)) with d.
  destruct (select_all d) as [rows|e]; reflexivity.
Qed.

Lemma books_key_has_prefix id : starts_with (js "books:") (js "books:" ++ id) = true.
Proof. cbn -[N.eqb]. rewrite !N.eqb_refl. reflexivity. Qed.

(** X15.  No stale read after a write: in normal operation, once a
    create, update or delete has answered 200 or 201, the next GET
    /api/books/:id (for any id) and the next GET /api/books are answered
    from the store as the write left it, not from an entry cached before
    the write. *)
Theorem read_after_write_comes_from_the_store (req : request) (d : db)
    (m : gmap (list N) Json.text) (r : response) (w' : world db) :
  is_write req = true ->
  handle req (normal_world d m) = (Fulfilled r, w') ->
  status r = 200 \/ status r = 201 ->
  exists n d',
    statement req d = Some (Normal (n, d'))
    /\ pool w' = d'
    /\ (forall id, fst (get_book id w') = Fulfilled (read_one_from_store d' id))
    /\ fst (get_books w') = Fulfilled (read_all_from_store d').
Proof.
  intros Hw Hrun Hst.
  destruct (write_success_normal req d m r w' Hw Hrun Hst) as (n & d' & Hstmt & ->).
  exists n, d'. split; [exact Hstmt|]. split; [reflexivity|]. split.
  - intros id. apply get_book_miss_normal.
    apply invalidated_lookup_prefix, books_key_has_prefix.
  - apply get_books_miss_normal. apply invalidated_lookup_prefix. reflexivity.
Qed.

End WriteThenRead.


Lemma read_after_write_comes_from_the_store_witness :
  let req := DeleteBook (js "1") in
  let d := pool Sample.orwell_cached in
  let m := {[ js "books:1" := Json.JsonText (RefStore.row Sample.orwell_row) ]} in
  let r := res_json 200 (VObj [(js "message", VStr (js "Book deleted successfully"))]) in
  let w' := normal_world (RefStore.with_books Sample.empty_db [] 2) ∅ in
  is_write req = true
  /\ handle req (normal_world d m) = (Fulfilled r, w')
  /\ (status r = 200 \/ status r = 201)
  /\ exists n d',
       statement req d = Some (Normal (n, d'))
       /\ pool w' = d'
       /\ (forall id, fst (get_book id w') = Fulfilled (read_one_from_store d' id))
       /\ fst (get_books w') = Fulfilled (read_all_from_store d').
Proof.
  intros req d m r w'.
  assert (Hw : is_write req = true) by reflexivity.
  assert (Hrun : handle req (normal_world d m) = (Fulfilled r, w'))
    by (vm_compute; reflexivity).
  assert (Hst : status r = 200 \/ status r = 201) by (left; reflexivity).
  split; [exact Hw|]. split; [exact Hrun|]. split; [exact Hst|].
  exact (read_after_write_comes_from_the_store (H := ref_store) req d m r w' Hw Hrun Hst).
Defined.

Section Coherence.

Context `{Store}.

Ltac open_route :=
  unfold handle, get_books, get_book, post_book, put_book, delete_book_route,
    try_catch, mbind, M_bind, bind, lift, ret, query_write,
    query_select_all, query_select_by_id, settled; cbv beta.

Lemma coherent_empty (d : db) : coherent (normal_world d ∅).
Proof.
  intros key t Hc. unfold cached_text in Hc. simpl in Hc.
  rewrite lookup_empty in Hc. discriminate.
Qed.

Lemma coherent_keys_have_prefix (w : world db) key t :
  coherent w -> cached_text w key = Some t -> starts_with (js "books:") key = true.
Proof.
  intros Hcoh Hc.
  destruct (Hcoh key t Hc) as [[-> _]|(id & row & rest & -> & _)]; [reflexivity|].
  apply books_key_has_prefix.
Qed.

Lemma coherent_invalidated (d d' : db) m :
  coherent (normal_world d m) ->
  coherent (normal_world d' (invalidated default_pattern m)).
Proof.
  intros Hcoh key t Hc. unfold cached_text in Hc. simpl in Hc.
  pose proof (invalidated_lookup_prefix m key) as Hnone.
  destruct (starts_with (js "books:") key) eqn:Hp.
  - rewrite Hnone in Hc by reflexivity. discriminate.
  - rewrite invalidated_lookup_other in Hc by exact Hp.
    pose proof (coherent_keys_have_prefix (normal_world d m) key t Hcoh Hc). congruence.
Qed.

Lemma coherent_insert (d : db) m key t :
  coherent (normal_world d m) ->
  coherent (normal_world d {[ key := t ]}) ->
  coherent (normal_world d (<[key := t]> m)).
Proof.
  intros Hcoh Hnew k t' Hc. unfold cached_text in Hc. simpl in Hc.
  destruct (decide (key = k)) as [->|Hne].
  - rewrite lookup_insert_eq in Hc. injection Hc as <-.
    apply (Hnew k t). unfold cached_text. simpl. apply lookup_singleton_eq.
  - rewrite lookup_insert_ne in Hc by exact Hne.
    apply (Hcoh k t'). exact Hc.
Qed.

(** One request keeps a coherent cache coherent, in normal operation. *)
Lemma coherent_preserved req (d : db) m :
  zero_rows_change_nothing ->
  coherent (normal_world d m) ->
  req <> GetBook (js "all") ->
  exists d' m',
    snd (handle req (normal_world d m)) = normal_world d' m'
    /\ coherent (normal_world d' m').
Proof.
  intros [Hupd Hdel] Hcoh Hreq.
  destruct req as [|id|b|id b|id]; open_route.
  - (* GET /api/books *)
    rewrite getFromCache_normal_world.
    destruct (JS.truthy _); [eauto|].
    change (pool (normal_world d m)) with d.
    destruct (select_all d) as [rows|e] eqn:Hsel; [|eauto].
    rewrite setToCache_normal_world by discriminate.
    do 2 eexists. split; [reflexivity|].
    apply coherent_insert; [exact Hcoh|].
    intros k t Hc. unfold cached_text in Hc. simpl in Hc.
    apply lookup_singleton_Some in Hc as [<- <-].
    left. split; [reflexivity|]. exists rows. auto.
  - (* GET /api/books/:id *)
    assert (Hid : id <> js "all") by congruence.
    rewrite getFromCache_normal_world.
    destruct (JS.truthy _); [eauto|].
    change (pool (normal_world d m)) with d.
    destruct (select_by_id d (VStr id)) as [[|row rest]|e] eqn:Hsel; [eauto| |eauto].
    destruct (undefined_or_not row) as [->|Hrow].
    + exists d, m. split; [reflexivity|exact Hcoh].
    + rewrite setToCache_normal_world by exact Hrow.
      do 2 eexists. split; [reflexivity|].
      apply coherent_insert; [exact Hcoh|].
      intros k t Hc. unfold cached_text in Hc. simpl in Hc.
      apply lookup_singleton_Some in Hc as [<- <-].
      right. exists id, row, rest. auto.
  - (* POST /api/books *)
    destruct (destructure b) as [[[[[t a] i] p] s]|e].
    2:{ destruct e as [| |code]; [eauto|eauto|].
        destruct (jsstring_eqb code _); eauto. }
    destruct (create_checks t a i p s) as [[r0|]|e].
    + eauto.
    + cbv beta. change (pool (normal_world d m)) with d.
      destruct (insert_book d _ _ _ _ _) as [[n d1]|e].
      * change {| pool := d1; redisClient := redisClient (normal_world d m) |}
          with (normal_world d1 m).
        rewrite invalidateCache_normal_world.
        do 2 eexists. split; [reflexivity|].
        apply (coherent_invalidated d). exact Hcoh.
      * destruct e as [| |code]; [eauto|eauto|].
        destruct (jsstring_eqb code _); eauto.
    + destruct e as [| |code]; [eauto|eauto|].
      destruct (jsstring_eqb code _); eauto.
  - (* PUT /api/books/:id *)
    destruct (destructure b) as [[[[[t a] i] p] s]|e]; [|eauto].
    destruct (update_checks i p s) as [[r0|]|e]; [eauto| |eauto].
    cbv beta. change (pool (normal_world d m)) with d.
    destruct (update_book d _ _ _ _ _ _) as [[n d1]|e] eqn:Hstmt; [|eauto].
    change {| pool := d1; redisClient := redisClient (normal_world d m) |}
      with (normal_world d1 m).
    destruct (n =? 0) eqn:Hn.
    + apply Z.eqb_eq in Hn. subst n. apply Hupd in Hstmt. subst d1. eauto.
    + rewrite invalidateCache_normal_world.
      do 2 eexists. split; [reflexivity|].
      apply (coherent_invalidated d). exact Hcoh.
  - (* DELETE /api/books/:id *)
    change (pool (normal_world d m)) with d.
    destruct (delete_book d _) as [[n d1]|e] eqn:Hstmt; [|eauto].
    change {| pool := d1; redisClient := redisClient (normal_world d m) |}
      with (normal_world d1 m).
    destruct (n =? 0) eqn:Hn.
    + apply Z.eqb_eq in Hn. subst n. apply Hdel in Hstmt. subst d1. eauto.
    + rewrite invalidateCache_normal_world.
      do 2 eexists. split; [reflexivity|].
      apply (coherent_invalidated d). exact Hcoh.
Qed.

(** X16.  The routes keep the cache coherent with the store.  Starting
    with an empty cache, in normal operation (client open, no command
    failing) and over a store where a statement that matches no row changes
    nothing, after any sequence of requests that never reads the id "all"
    every cache entry is the JSON copy of what the store returns now: the
    rows of the list under [books:all], the row of the id under
    [books:id]. *)
Theorem routes_keep_the_cache_coherent (reqs : list request) (d : db) :
  zero_rows_change_nothing ->
  Forall (fun req => req <> GetBook (js "all")) reqs ->
  exists d' m',
    run reqs (normal_world d ∅) = normal_world d' m'
    /\ coherent (normal_world d' m').
Proof.
  intros Hlaw Hreqs.
  assert (Hgen : forall d0 m0, coherent (normal_world d0 m0) ->
            exists d' m', run reqs (normal_world d0 m0) = normal_world d' m'
                          /\ coherent (normal_world d' m')).
  { induction Hreqs as [|req rest Hreq _ IH]; intros d0 m0 Hcoh.
    - exists d0, m0. split; [reflexivity|exact Hcoh].
    - destruct (coherent_preserved req d0 m0 Hlaw Hcoh Hreq) as (d1 & m1 & Hstep & Hcoh1).
      simpl. rewrite Hstep. apply IH. exact Hcoh1. }
  apply Hgen. apply coherent_empty.
Qed.

End Coherence.

(** The reference store satisfies the law used above. *)
Lemma ref_store_zero_rows : zero_rows_change_nothing (H := ref_store).
Proof.
  split.
  - intros d t a i p s id d'. simpl. unfold RefStore.update, bind_c.
    destruct (RefStore.reachable d); [|discriminate].
    destruct (RefStore.escaped t); [|discriminate].
    destruct (RefStore.escaped a); [|discriminate].
    destruct (RefStore.escaped i); [|discriminate].
    destruct (RefStore.escaped p); [|discriminate].
    destruct (RefStore.escaped s); [|discriminate].
    destruct (RefStore.escaped id); [|discriminate].
    destruct (RefStore.id_filter true _) as [f|e]; [|discriminate].
    destruct (List.filter f (RefStore.books d)) as [|b0 rest];
      [intros [= <-]; reflexivity|].
    destruct (RefStore.to_varchar 255 _); [|discriminate].
    destruct (RefStore.to_varchar 255 _); [|discriminate].
    destruct (RefStore.to_varchar 20 _); [|discriminate].
    destruct (RefStore.to_decimal_10_2 _); [|discriminate].
    destruct (RefStore.to_int _); [|discriminate].
    destruct (_ || _); [discriminate|].
    intros Heq. exfalso. injection Heq as Hz _.
    change (Z.of_nat (S (length rest)) = 0) in Hz. lia.
  - intros d id d'. simpl. unfold RefStore.delete, bind_c.
    destruct (RefStore.reachable d); [|discriminate].
    destruct (RefStore.escaped id); [|discriminate].
    destruct (RefStore.id_filter true _) as [f|e]; [|discriminate].
    intros Heq. injection Heq as Hz <-. unfold RefStore.with_books.
    assert (Hnil : List.filter f (RefStore.books d) = [])
      by (destruct (List.filter f (RefStore.books d)); [reflexivity|simpl in Hz; lia]).
    assert (Hall : List.filter (fun x => negb (f x)) (RefStore.books d) = RefStore.books d).
    { clear Hz. induction (RefStore.books d) as [|x l IH]; [reflexivity|].
      simpl in *. destruct (f x); [discriminate|]. simpl. f_equal. exact (IH Hnil). }
    rewrite Hall. destruct d; reflexivity.
Qed.

Lemma routes_keep_the_cache_coherent_witness :
  let reqs := [PostBook Sample.orwell; GetBook (js "1"); GetBooks;
               PutBook (js "1") Sample.joyce; GetBook (js "1")] in
  zero_rows_change_nothing (H := ref_store)
  /\ Forall (fun req => req <> GetBook (js "all")) reqs
  /\ exists d' m',
       run reqs (normal_world Sample.empty_db ∅) = normal_world d' m'
       /\ coherent (normal_world d' m').
Proof.
  intros reqs.
  assert (Hreqs : Forall (fun req => req <> GetBook (js "all")) reqs)
    by (repeat constructor; discriminate).
  split; [exact ref_store_zero_rows|]. split; [exact Hreqs|].
  exact (routes_keep_the_cache_coherent (H := ref_store)
           reqs Sample.empty_db ref_store_zero_rows Hreqs).
Defined.

(** ** Start-up (lines 182-217, 695-723) *)

Section StartupProperties.

Import Startup.

(** X17.  [startServer] calls [initDatabase] at most five times and never
    both exits and starts the listener.  It exits (with code 1) exactly
    when [mysql.createPool] itself threw at each of the five attempts, the
    only way for [pool] to stay undefined.  Otherwise it calls [initRedis],
    and it starts the listener exactly when [redisClient.connect()]
    settles, connected or rejected: while the cache server stays
    unreachable the process neither exits nor listens. *)
Theorem startServer_exits_listens_or_waits (env : nat -> attempt) (cache : cache_attempt) :
  (attempts (startServer env cache) <= 5)%nat
  /\ listening (startServer env cache) && exited (startServer env cache) = false
  /\ (exited (startServer env cache) = true <->
      forall n, (n < 5)%nat -> env n = CreatePoolThrows)
  /\ (listening (startServer env cache) = true <->
      exited (startServer env cache) = false /\ cache <> CacheUnreachable).
Proof.
  split; [apply startServer_attempts_at_most_5|].
  split; [apply startServer_never_exits_and_listens|].
  split; [apply startServer_exits_iff|apply startServer_listens_iff].
Qed.

Lemma not_succeeds_cases a :
  a <> ConnectionSucceeds -> a = CreatePoolThrows \/ a = ConnectionFails.
Proof. destruct a; auto. intros Hne. destruct Hne. reflexivity. Qed.

(** X18.  The retry loop stops at the first connection: when the attempt
    of index [k] (below five) is the first to succeed, the process has
    called [initDatabase] [k + 1] times, slept 5000 ms after each of the [k]
    failures and not after the success, and then calls [initRedis]; the
    listener follows when [redisClient.connect()] settles, and nothing
    follows while the cache server stays unreachable. *)
Theorem startServer_stops_at_first_connection (env : nat -> attempt)
    (cache : cache_attempt) (k : nat) :
  (k < 5)%nat ->
  (forall j, (j < k)%nat -> env j <> ConnectionSucceeds) ->
  env k = ConnectionSucceeds ->
  trace (startServer env cache)
  = concat (repeat [Connect; Sleep 5000] k) ++ [Connect; InitRedis]
    ++ match cache with
       | CacheUnreachable => []
       | _ => [Listen]
       end.
Proof.
  intros Hk Hfail Hok.
  assert (Hc : forall j, (j < k)%nat -> env j = CreatePoolThrows \/ env j = ConnectionFails)
    by (intros j Hj; apply not_succeeds_cases, Hfail, Hj).
  unfold startServer. cbn [connect_loop].
  destruct k as [|[|[|[|[|k]]]]]; [| | | | |lia]; rewrite ?Hok;
    repeat match goal with
           | |- context [env ?j] =>
               let Hj := fresh "Hj" in
               destruct (Hc j ltac:(lia)) as [Hj|Hj]; rewrite Hj; clear Hj
           end; rewrite ?Hok; destruct cache; reflexivity.
Qed.

(** X19.  When no attempt succeeds, each of the five failures, the last
    one included, is followed by a 5000 ms sleep: the process makes five
    attempts and sleeps five times (25 seconds) before it decides. *)
Theorem startServer_sleeps_after_every_failure (env : nat -> attempt)
    (cache : cache_attempt) :
  (forall n, (n < 5)%nat -> env n <> ConnectionSucceeds) ->
  take 10 (trace (startServer env cache)) = concat (repeat [Connect; Sleep 5000] 5)
  /\ attempts (startServer env cache) = 5%nat
  /\ (length (trace (startServer env cache)) <= 12)%nat.
Proof.
  intros Hfail.
  assert (Hc : forall j, (j < 5)%nat -> env j = CreatePoolThrows \/ env j = ConnectionFails)
    by (intros j Hj; apply not_succeeds_cases, Hfail, Hj).
  unfold startServer, attempts. cbn [connect_loop].
  destruct (Hc 0%nat ltac:(lia)) as [H0|H0], (Hc 1%nat ltac:(lia)) as [H1|H1],
    (Hc 2%nat ltac:(lia)) as [H2|H2], (Hc 3%nat ltac:(lia)) as [H3|H3],
    (Hc 4%nat ltac:(lia)) as [H4|H4];
    rewrite H0, H1, H2, H3, H4; destruct cache; cbn;
    (split; [reflexivity|split; [reflexivity|lia]]).
Qed.

End StartupProperties.

Lemma startServer_stops_at_first_connection_witness :
  let env := fun n : nat =>
               if (n <? 2)%nat then Startup.ConnectionFails
               else Startup.ConnectionSucceeds in
  (2 < 5)%nat
  /\ (forall j, (j < 2)%nat -> env j <> Startup.ConnectionSucceeds)
  /\ env 2%nat = Startup.ConnectionSucceeds
  /\ Startup.trace (Startup.startServer env Startup.CacheUnreachable)
     = concat (repeat [Startup.Connect; Startup.Sleep 5000] 2)
       ++ [Startup.Connect; Startup.InitRedis] ++ [].
Proof.
  intros env.
  assert (Hk : (2 < 5)%nat) by lia.
  assert (Hfail : forall j, (j < 2)%nat -> env j <> Startup.ConnectionSucceeds).
  { intros j Hj. destruct j as [|[|j]]; [discriminate|discriminate|lia]. }
  assert (Hok : env 2%nat = Startup.ConnectionSucceeds) by reflexivity.
  split; [exact Hk|]. split; [exact Hfail|]. split; [exact Hok|].
  exact (startServer_stops_at_first_connection env Startup.CacheUnreachable 2 Hk Hfail Hok).
Defined.

Lemma startServer_sleeps_after_every_failure_witness :
  let env := fun n : nat =>
               if Nat.even n then Startup.ConnectionFails
               else Startup.CreatePoolThrows in
  (forall n, (n < 5)%nat -> env n <> Startup.ConnectionSucceeds)
  /\ take 10 (Startup.trace (Startup.startServer env Startup.CacheConnects))
     = concat (repeat [Startup.Connect; Startup.Sleep 5000] 5)
  /\ Startup.attempts (Startup.startServer env Startup.CacheConnects) = 5%nat
  /\ (length (Startup.trace (Startup.startServer env Startup.CacheConnects)) <= 12)%nat.
Proof.
  intros env.
  assert (Hfail : forall n, (n < 5)%nat -> env n <> Startup.ConnectionSucceeds).
  { intros n _. unfold env. destruct (Nat.even n); discriminate. }
  split; [exact Hfail|].
  exact (startServer_sleeps_after_every_failure env Startup.CacheConnects Hfail).
Defined.

(** ** [parseInt] in the stock check and in the configuration
       (lines 135-153, 176-179) *)

Section LeadingDigits.

Lemma digit_is_no_space c : digit c = true -> space c = false.
Proof.
  unfold digit, space. intros Hd.
  apply andb_true_iff in Hd as [H1 H2].
  apply N.leb_le in H1. apply N.leb_le in H2.
  repeat match goal with
         | |- (_ || _)%bool = false => apply orb_false_iff; split
         | |- (_ && _)%bool = false => apply andb_false_iff
         end;
    try (apply N.eqb_neq; lia);
    try (right; apply N.leb_gt; lia); try (left; apply N.leb_gt; lia).
Qed.

Lemma digit_is_not c k : digit c = true -> (k < 48 \/ 57 < k)%N -> N.eqb c k = false.
Proof.
  unfold digit. intros Hd Hk.
  apply andb_true_iff in Hd as [H1 H2].
  apply N.leb_le in H1. apply N.leb_le in H2.
  apply N.eqb_neq. lia.
Qed.

Lemma span_digits (ds rest : list N) :
  forallb digit ds = true ->
  (forall c t, rest = c :: t -> digit c = false) ->
  JS.span digit (ds ++ rest) = (ds, rest).
Proof.
  intros Hds Hrest. induction ds as [|d ds IH]; cbn [app JS.span].
  - destruct rest as [|c t]; [reflexivity|].
    cbn [JS.span]. rewrite (Hrest c t eq_refl). reflexivity.
  - cbn [forallb] in Hds. apply andb_true_iff in Hds as [Hd Hds].
    rewrite Hd, (IH Hds). reflexivity.
Qed.

Lemma parseInt_string_leading_digits (ds rest : list N) :
  ds <> [] ->
  forallb digit ds = true ->
  (forall c t, rest = c :: t ->
               digit c = false /\ N.eqb c (cu "x") = false /\ N.eqb c (cu "X") = false) ->
  JS.parseInt_string (ds ++ rest) = Num.of_Z (JS.digits_val ds).
Proof.
  intros Hne Hds Hrest.
  destruct ds as [|d ds']; [congruence|].
  pose proof Hds as Hall.
  cbn [forallb] in Hds. apply andb_true_iff in Hds as [Hd Hds'].
  assert (Hspan : JS.span digit ((d :: ds') ++ rest) = (d :: ds', rest)).
  { apply span_digits; [exact Hall|]. intros c t E. apply (Hrest c t E). }
  unfold JS.parseInt_string, JS.trim_start.
  change ((d :: ds') ++ rest) with (d :: (ds' ++ rest)) in *.
  cbn [JS.span]. rewrite (digit_is_no_space d Hd). cbn [snd JS.read_sign].
  rewrite (digit_is_not d (cu "-") Hd) by (vm_compute; left; reflexivity).
  rewrite (digit_is_not d (cu "+") Hd) by (vm_compute; left; reflexivity).
  assert (Hhex : (match d :: (ds' ++ rest) with
                  | c0 :: c1 :: t =>
                      if N.eqb c0 (cu "0") && (N.eqb c1 (cu "x") || N.eqb c1 (cu "X"))
                      then (true, t) else (false, d :: (ds' ++ rest))
                  | _ => (false, d :: (ds' ++ rest))
                  end) = (false, d :: (ds' ++ rest))).
  { destruct ds' as [|d2 ds'']; cbn [app].
    - destruct rest as [|c t]; [reflexivity|].
      destruct (Hrest c t eq_refl) as (_ & Hx & HX). rewrite Hx, HX.
      rewrite andb_false_r. reflexivity.
    - cbn [forallb] in Hds'. apply andb_true_iff in Hds' as [Hd2 _].
      rewrite (digit_is_not d2 (cu "x") Hd2) by (vm_compute; right; reflexivity).
      rewrite (digit_is_not d2 (cu "X") Hd2) by (vm_compute; right; reflexivity).
      rewrite andb_false_r. reflexivity. }
  rewrite Hhex. rewrite Hspan. reflexivity.
Qed.

(** X20.  The stock check reads the leading decimal digits of a text and
    nothing after them: a text that starts with digits and goes on with
    anything but a digit (or an [x] that would make a hexadecimal prefix)
    is accepted or refused as its digits alone are, so that [12abc],
    [5.9] and [7 books] pass as 12, 5 and 7. *)
Theorem validateStock_reads_only_the_leading_digits (ds rest : jsstring) :
  ds <> [] ->
  forallb digit ds = true ->
  (forall c t, rest = c :: t ->
               digit c = false /\ N.eqb c (cu "x") = false /\ N.eqb c (cu "X") = false) ->
  JS.parseInt (VStr (ds ++ rest)) = Normal (Num.of_Z (JS.digits_val ds))
  /\ validateStock (VStr (ds ++ rest)) = validateStock (VStr ds).
Proof.
  intros Hne Hds Hrest.
  assert (H1 : JS.parseInt (VStr (ds ++ rest)) = Normal (Num.of_Z (JS.digits_val ds))).
  { unfold JS.parseInt. cbn [JS.to_string bind_c]. f_equal.
    apply parseInt_string_leading_digits; assumption. }
  assert (H2 : JS.parseInt (VStr ds) = Normal (Num.of_Z (JS.digits_val ds))).
  { unfold JS.parseInt. cbn [JS.to_string bind_c]. f_equal.
    rewrite <- (app_nil_r ds) at 1.
    apply parseInt_string_leading_digits; [assumption|assumption|].
    intros c t E. discriminate E. }
  split; [exact H1|]. unfold validateStock. rewrite H1, H2. reflexivity.
Qed.

Lemma digits_val_zeros k : JS.digits_val (repeat (cu "0") k) = 0.
Proof.
  unfold JS.digits_val.
  induction k as [|k IH]; [reflexivity|]. cbn [repeat fold_left]. exact IH.
Qed.

Lemma truthy_or_else a b : JS.truthy b = true -> JS.truthy (JS.or_else a b) = true.
Proof. unfold JS.or_else. intros Hb. destruct (JS.truthy a) eqn:Ha; assumption. Qed.

(** X21.  A configured integer ([DB_PORT], [REDIS_PORT], [CACHE_TTL]) is
    never [NaN] and never zero: with a non-zero default, the value is
    always truthy; an unset variable and a variable set to zero (any run of
    [0], whatever follows it) both give the default, so that [CACHE_TTL=0]
    configures 300 seconds. *)
Theorem configured_integer_is_never_zero (fallback : Z) :
  fallback <> 0 ->
  (forall x, exists v, Config.env_int x fallback = Normal v /\ JS.truthy v = true)
  /\ Config.env_int None fallback = Normal (VNum (Fin (inject_Z fallback)))
  /\ (forall k rest,
        (forall c t, rest = c :: t ->
           digit c = false /\ N.eqb c (cu "x") = false /\ N.eqb c (cu "X") = false) ->
        Config.env_int (Some (repeat (cu "0") (S k) ++ rest)) fallback
        = Normal (VNum (Fin (inject_Z fallback)))).
Proof.
  intros Hfb.
  assert (Ht : JS.truthy (VNum (Fin (inject_Z fallback))) = true).
  { cbn [JS.truthy]. apply negb_true_iff. apply not_true_is_false.
    intros E. apply Qeq_bool_iff in E. unfold Qeq in E. cbn in E. lia. }
  split; [|split].
  - intros x. unfold Config.env_int, JS.parseInt.
    destruct x as [s|]; cbn [JS.to_string bind_c];
      eexists; (split; [reflexivity|apply truthy_or_else, Ht]).
  - reflexivity.
  - intros k rest Hrest. unfold Config.env_int, JS.parseInt.
    cbn [JS.to_string bind_c].
    rewrite parseInt_string_leading_digits.
    + rewrite digits_val_zeros. reflexivity.
    + discriminate.
    + clear. induction (S k) as [|n IH]; [reflexivity|]. cbn [repeat forallb].
      rewrite IH. reflexivity.
    + exact Hrest.
Qed.

End LeadingDigits.

Lemma validateStock_reads_only_the_leading_digits_witness :
  js "12" <> []
  /\ forallb digit (js "12") = true
  /\ JS.parseInt (VStr (js "12" ++ js "abc")) = Normal (Num.of_Z (JS.digits_val (js "12")))
  /\ validateStock (VStr (js "12" ++ js "abc")) = validateStock (VStr (js "12")).
Proof.
  assert (Hne : js "12" <> []) by discriminate.
  assert (Hds : forallb digit (js "12") = true) by reflexivity.
  assert (Hrest : forall c t, js "abc" = c :: t ->
            digit c = false /\ N.eqb c (cu "x") = false /\ N.eqb c (cu "X") = false).
  { intros c t E. injection E as <- _. repeat split; reflexivity. }
  split; [exact Hne|]. split; [exact Hds|].
  exact (validateStock_reads_only_the_leading_digits (js "12") (js "abc") Hne Hds Hrest).
Defined.

Lemma configured_integer_is_never_zero_witness :
  300 <> 0
  /\ Config.cache_ttl (Some (js "0")) = Normal (VNum (Fin (inject_Z 300)))
  /\ exists v, Config.cache_ttl (Some (js "abc")) = Normal v /\ JS.truthy v = true.
Proof.
  assert (Hfb : 300 <> 0) by lia.
  destruct (configured_integer_is_never_zero 300 Hfb) as (Htruthy & _ & Hzero).
  split; [exact Hfb|]. split.
  - apply (Hzero 0%nat []). intros c t E. discriminate E.
  - apply Htruthy.
Defined.

(** ** Values that cannot be converted to a string *)

Section Unprintable.

Context `{Store}.

(** X22.  A price (or a stock) that is an object with an own [toString]
    member is not rejected with a 400: [parseFloat] (or [parseInt]) throws
    a TypeError while converting it, inside the try block, and the create
    route answers 500 "Failed to create book", the state unchanged.  The
    request is otherwise valid: title and author truthy, the ISBN
    accepted. *)
Theorem create_with_unprintable_price_is_a_500 (b : value) (w : world db)
    (props : list (jsstring * value)) :
  JS.truthy (Obj.get (js "title") b) = true ->
  JS.truthy (Obj.get (js "author") b) = true ->
  validateISBN (Obj.get (js "isbn") b) = Normal true ->
  JS.has_own (js "toString") props = true ->
  Obj.get (js "price") b = VObj props
  \/ ((Obj.get (js "price") b = VUndefined
       \/ validatePrice (Obj.get (js "price") b) = Normal true)
      /\ Obj.get (js "stock") b = VObj props) ->
  post_book b w = (Fulfilled (res_json 500 (error_body "Failed to create book")), w).
Proof.
  intros Ht Ha Hi Hown Hbad.
  assert (Htr : JS.truthy (Obj.get (js "isbn") b) = true)
    by (destruct (Obj.get (js "isbn") b); try discriminate Hi;
        cbn in Hi |- *; destruct s; [discriminate Hi|reflexivity]).
  assert (Hd : destructure b
               = Normal (Obj.get (js "title") b, Obj.get (js "author") b,
                         Obj.get (js "isbn") b, Obj.get (js "price") b,
                         Obj.get (js "stock") b)).
  { destruct b; try reflexivity; cbn in Ht; discriminate Ht. }
  assert (Hthrow_p : validatePrice (VObj props) = Throw TypeError)
    by (unfold validatePrice, JS.parseFloat; cbn [JS.to_string]; rewrite Hown; reflexivity).
  assert (Hthrow_s : validateStock (VObj props) = Throw TypeError)
    by (unfold validateStock, JS.parseInt; cbn [JS.to_string]; rewrite Hown; reflexivity).
  unfold post_book, try_catch, mbind, M_bind, bind, lift, ret, settled. cbv beta.
  rewrite Hd. unfold create_checks. rewrite Ht, Ha, Htr, Hi. cbn [negb orb bind_c].
  destruct Hbad as [Hp|[Hp Hs]].
  - rewrite Hp. unfold and_not. cbn [JS.is_defined]. rewrite Hthrow_p. reflexivity.
  - rewrite Hs. destruct Hp as [Hp|Hp].
    + rewrite Hp. unfold and_not. cbn [JS.is_defined bind_c]. rewrite Hthrow_s. reflexivity.
    + unfold and_not. rewrite Hp.
      destruct (JS.is_defined (Obj.get (js "price") b)); cbn [bind_c negb JS.is_defined];
        rewrite Hthrow_s; reflexivity.
Qed.

End Unprintable.

Lemma create_with_unprintable_price_is_a_500_witness :
  let props := [(js "toString", VNum (Fin 1))] in
  let b := Sample.book_body "Ulysses" "James Joyce" (VStr (js "0451524935"))
             (VObj props) (VNum (Fin 7)) in
  JS.truthy (Obj.get (js "title") b) = true
  /\ JS.truthy (Obj.get (js "author") b) = true
  /\ validateISBN (Obj.get (js "isbn") b) = Normal true
  /\ JS.has_own (js "toString") props = true
  /\ post_book b Sample.orwell_cached
     = (Fulfilled (res_json 500 (error_body "Failed to create book")), Sample.orwell_cached).
Proof.
  intros props b.
  assert (Ht : JS.truthy (Obj.get (js "title") b) = true) by reflexivity.
  assert (Ha : JS.truthy (Obj.get (js "author") b) = true) by reflexivity.
  assert (Hi : validateISBN (Obj.get (js "isbn") b) = Normal true)
    by (vm_compute; reflexivity).
  assert (Hown : JS.has_own (js "toString") props = true) by reflexivity.
  assert (Hbad : Obj.get (js "price") b = VObj props
                 \/ ((Obj.get (js "price") b = VUndefined
                      \/ validatePrice (Obj.get (js "price") b) = Normal true)
                     /\ Obj.get (js "stock") b = VObj props))
    by (left; reflexivity).
  split; [exact Ht|]. split; [exact Ha|]. split; [exact Hi|]. split; [exact Hown|].
  exact (create_with_unprintable_price_is_a_500 (H := ref_store)
           b Sample.orwell_cached props Ht Ha Hi Hown Hbad).
Defined.

(** ** Cache transparency *)

Section Transparency.

Context `{Store}.

Ltac open_route :=
  unfold handle, get_books, get_book, post_book, put_book, delete_book_route,
    try_catch, mbind, M_bind, bind, lift, ret, query_write,
    query_select_all, query_select_by_id, settled; cbv beta.

Ltac open_helper :=
  unfold getFromCache, setToCache, invalidateCache,
    mbind, M_bind, bind, redis_isOpen, try_catch, ret, lift, redis_cmd,
    open_world, Redis.get, Redis.setEx, Redis.keys, Redis.del,
    Redis.next_fault, Redis.with_keyspace;
  cbv beta.












End Transparency.


